(** * DeepResearchAgent: the bootstrap pipeline and the interactive loop of [main.py]

    A shallow embedding of [main.py]: the initialization pipeline of [main]
    (argument parsing, configuration, logger, model registry, agent tree) and
    the [while True] loop that reads a task, hands it to the root agent and
    reports the result or the error.

    The collaborators imported by [main.py] ([src.config], [src.logger],
    [src.models], [src.agent], [argparse]) are taken as an environment: what
    each call returns or raises.  Everything [main] itself does is written
    out: the order of the calls, the strings it prints and logs, the [try] /
    [except Exception] around the dispatch, [break] and [continue].

    Every call of a collaborator has an outcome, a value or an exception; a
    call that never comes back is not modelled.  [print] and the calls of
    the initialized logger return.  The root agent is a state that
    [agent.run] may change, also when it raises. *)

From Stdlib Require Import List String Ascii ZArith NArith Bool Lia.
Import ListNotations.

Open Scope string_scope.
Open Scope list_scope.

(** ** Python strings

    A [str] is modelled by [string]; a character of type [ascii] stands for
    the code point of the same number, U+0000 to U+00FF. *)

Module PyStr.

(** [c.isspace()] on the code points below 256: TAB to CR, FS to US and
    the space, NEL (U+0085) and the no-break space (U+00A0). *)
Definition isspace (c : ascii) : bool :=
  let n := N_of_ascii c in
  ((9 <=? n) && (n <=? 13) || (28 <=? n) && (n <=? 32)
   || (n =? 133) || (n =? 160))%N.

(** The code points below 256 that [str.lower] changes: A to Z, and
    U+00C0 to U+00DE without the multiplication sign U+00D7. *)
Definition isupper (c : ascii) : bool :=
  let n := N_of_ascii c in
  ((65 <=? n) && (n <=? 90)
   || (192 <=? n) && (n <=? 222) && negb (n =? 215))%N.

Definition lower_char (c : ascii) : ascii :=
  if isupper c then ascii_of_N (N_of_ascii c + 32) else c.

(** [s.lower()] *)
Fixpoint lower (s : string) : string :=
  match s with
  | EmptyString => EmptyString
  | String c s' => String (lower_char c) (lower s')
  end.

Fixpoint lstrip (s : string) : string :=
  match s with
  | EmptyString => EmptyString
  | String c s' => if isspace c then lstrip s' else s
  end.

Fixpoint rstrip (s : string) : string :=
  match s with
  | EmptyString => EmptyString
  | String c s' =>
      match rstrip s' with
      | EmptyString => if isspace c then EmptyString else String c EmptyString
      | r => String c r
      end
  end.

(** [s.strip()]: leading, then trailing white space removed. *)
Definition strip (s : string) : string := rstrip (lstrip s).

(** [s * n] *)
Fixpoint mul (s : string) (n : nat) : string :=
  match n with
  | O => EmptyString
  | S n' => (s ++ mul s n')%string
  end.

(** [sep.join(l)] *)
Fixpoint join (sep : string) (l : list string) : string :=
  match l with
  | [] => EmptyString
  | [x] => x
  | x :: l' => (x ++ sep ++ join sep l')%string
  end.

(** [not s] *)
Definition is_empty (s : string) : bool :=
  match s with EmptyString => true | String _ _ => false end.

(** [x in l] for a list of strings *)
Definition mem (x : string) (l : list string) : bool :=
  existsb (String.eqb x) l.

(** The line feed of the literals ["\n..."]. *)
Definition nl : string := String (ascii_of_N 10) EmptyString.

End PyStr.

(** ** Exceptions *)

(** The class of a raised object, as far as [main.py] and the interpreter
    tell classes apart: [except Exception] catches [Exception] and its
    subclasses; [KeyboardInterrupt], [asyncio.CancelledError] and
    [SystemExit] derive from [BaseException] only. *)
Inductive exn_class : Type :=
| ExceptionClass (name : string)
| KeyboardInterrupt
| CancelledError
| SystemExit (code : Z)      (* [sys.exit(code)] with an integer code *)
| BaseExceptionClass (name : string).

Record exn : Type := mkExn {
  exn_cls : exn_class;
  exn_str : string          (* [str(e)], what [f"{e}"] renders *)
}.

(** [isinstance(e, Exception)] *)
Definition is_Exception (e : exn) : bool :=
  match exn_cls e with
  | ExceptionClass _ => true
  | _ => false
  end.

(** What [input] raises at the end of the input stream. *)
Definition EOFError : exn :=
  mkExn (ExceptionClass "EOFError") "EOF when reading a line".

(** ** Observable events *)

Inductive stage : Type :=
| ParseArgs | InitConfig | InitLogger | InitModels | CreateAgent.

Inductive event : Type :=
| StageBegin (s : stage)                       (* the stage's call is entered *)
| StageEnd (s : stage)                         (* it returned *)
| StageRaise (s : stage) (e : exn)             (* it raised *)
| LogInfo (msg : string) (args : list string)  (* [logger.info(msg, *args)] *)
| LogError (msg : string)                      (* [logger.error(msg)] *)
| VisualizeTree                                (* [logger.visualize_agent_tree(agent)] *)
| Print (s : string)                           (* [print(s)] *)
| Input (prompt : string)                      (* [input(prompt)] is entered *)
| RunBegin (task : string)                     (* [agent.run(task)] is awaited *)
| RunReturn (res : string)                     (* the await completed with [res] *)
| RunRaise (e : exn).                          (* the await raised [e] *)

(** ** Computations: the events so far, then a value or a raised exception *)

Inductive completion (A : Type) : Type :=
| Normal (a : A)
| Raised (e : exn).
Arguments Normal {A} a.
Arguments Raised {A} e.

Definition M (A : Type) : Type := (list event * completion A)%type.

Definition ret {A} (a : A) : M A := ([], Normal a).

Definition bind {A B} (m : M A) (f : A -> M B) : M B :=
  match m with
  | (t, Normal a) => let (t', r) := f a in (t ++ t', r)
  | (t, Raised e) => (t, Raised e)
  end.

Definition emit (ev : event) : M unit := ([ev], Normal tt).

Definition raise {A} (e : exn) : M A := ([], Raised e).

(** [try: body / except Exception as e: handler e] *)
Definition try_except {A} (body : M A) (handler : exn -> M A) : M A :=
  match body with
  | (t, Normal a) => (t, Normal a)
  | (t, Raised e) =>
      if is_Exception e
      then let (t', r) := handler e in (t ++ t', r)
      else (t, Raised e)
  end.

Notation "x <- m ;; k" := (bind m (fun x => k))
  (at level 61, m at next level, right associativity).
Notation "m ;; k" := (bind m (fun _ => k))
  (at level 61, right associativity).

Definition trace {A} (m : M A) : list event := fst m.
Definition outcome {A} (m : M A) : completion A := snd m.

Definition print (s : string) : M unit := emit (Print s).
Definition log_info (msg : string) (args : list string) : M unit :=
  emit (LogInfo msg args).
Definition log_error (msg : string) : M unit := emit (LogError msg).

(** ** The environment of [main] *)

(** [args]: the namespace [parse_args] returns. *)
Record Args : Type := mkArgs {
  args_config : string;
  args_cfg_options : option (list (string * string))
}.

(** The attributes of [config] that [main] reads once it is initialized. *)
Record Config : Type := mkConfig {
  log_path : string;
  pretty_text : string;
  use_local_proxy : bool
}.

(** What a call of a collaborator does: return a value or raise. *)
Definition result (A : Type) : Type := completion A.

(** What one [input(...)] call finds on the input stream. *)
Inductive read : Type :=
| Line (l : string)        (* a line, its line feed removed *)
| ReadRaise (e : exn).     (* the call raises, e.g. [KeyboardInterrupt] *)

Section Program.

(** The root agent: a state and what [run] does with a task in it. *)
Variable Agent : Type.

Record Env : Type := mkEnv {
  (* [parser.parse_args()] on the command line of the process *)
  env_parse_args : result Args;
  (* [config.init_config(args.config, args)], then the attributes of [config] *)
  env_init_config : string -> Args -> result Config;
  (* [logger.init_logger(log_path=...)] *)
  env_init_logger : string -> result unit;
  (* [model_manager.init_models(use_local_proxy=...)], then
     [model_manager.registed_models.keys()] *)
  env_init_models : bool -> result (list string);
  (* [await create_agent(config)] *)
  env_create_agent : Config -> result Agent;
  (* [await agent.run(task)]: the agent afterwards, and the result or the error *)
  env_run : Agent -> string -> Agent * result string
}.

Variable env : Env.

(** A stage of the pipeline: its call is entered; it returns or raises. *)
Definition run_stage {A} (s : stage) (r : result A) : M A :=
  emit (StageBegin s) ;;
  match r with
  | Normal a => emit (StageEnd s) ;; ret a
  | Raised e => emit (StageRaise s e) ;; raise e
  end.

(** [await agent.run(task)], given what the call does. *)
Definition await_run (task : string) (r : result string) : M string :=
  emit (RunBegin task) ;;
  match r with
  | Normal res => emit (RunReturn res) ;; ret res
  | Raised e => emit (RunRaise e) ;; raise e
  end.

Definition quit_tokens : list string := ["quit"; "exit"; "q"].

Definition prompt : string := (PyStr.nl ++ "> ")%string.

Definition next_task_line : string :=
  (PyStr.nl ++ "Enter your next task (or 'quit' to exit):")%string.

(** The [try] statement of the loop, lines 72 to 81. *)
Definition dispatch (agent : Agent) (task : string) : Agent * M unit :=
  let (agent', r) := env_run env agent task in
  (agent',
   try_except
     (print (PyStr.nl ++ "Processing task: " ++ task) ;;
      print (PyStr.mul "-" 50) ;;
      res <- await_run task r ;;
      print (PyStr.mul "-" 50) ;;
      print ("Final Result: " ++ res) ;;
      log_info ("| Result: " ++ res) [])
     (fun e =>
        print ("Error processing task: " ++ exn_str e) ;;
        log_error ("Error processing task: " ++ exn_str e))).

(** The [while True] loop, lines 61 to 83, on the reads that the input
    stream holds; past its end [input] raises [EOFError]. *)
Fixpoint loop (agent : Agent) (stdin : list read) : M unit :=
  emit (Input prompt) ;;
  match stdin with
  | [] => raise EOFError
  | ReadRaise e :: _ => raise e
  | Line l :: rest =>
      let task := PyStr.strip l in
      if PyStr.mem (PyStr.lower task) quit_tokens then
        print "Goodbye!"                           (* break *)
      else if PyStr.is_empty task then
        print "Please enter a task." ;;
        loop agent rest                            (* continue *)
      else
        let (agent', d) := dispatch agent task in
        d ;;
        print next_task_line ;;
        loop agent' rest
  end.

(** What lines 55 to 59 print before the first prompt. *)
Definition banner : list string :=
  [ (PyStr.nl ++ PyStr.mul "=" 60)%string;
    "DeepResearchAgent - Hierarchical Agent Interactive Mode";
    PyStr.mul "=" 60;
    "Available agents: deep_analyzer_agent, browser_use_agent, deep_researcher_agent";
    "Enter your task (or 'quit' to exit):" ].

(** [main], lines 34 to 83. *)
Definition main (stdin : list read) : M unit :=
  args <- run_stage ParseArgs (env_parse_args env) ;;
  cfg <- run_stage InitConfig (env_init_config env (args_config args) args) ;;
  run_stage InitLogger (env_init_logger env (log_path cfg)) ;;
  log_info ("| Logger initialized at: " ++ log_path cfg) [] ;;
  log_info ("| Config:" ++ PyStr.nl ++ pretty_text cfg) [] ;;
  names <- run_stage InitModels (env_init_models env (use_local_proxy cfg)) ;;
  log_info "| Registed models: %s" [PyStr.join ", " names] ;;
  agent <- run_stage CreateAgent (env_create_agent env cfg) ;;
  emit VisualizeTree ;;
  print (PyStr.nl ++ PyStr.mul "=" 60) ;;
  print "DeepResearchAgent - Hierarchical Agent Interactive Mode" ;;
  print (PyStr.mul "=" 60) ;;
  print "Available agents: deep_analyzer_agent, browser_use_agent, deep_researcher_agent" ;;
  print "Enter your task (or 'quit' to exit):" ;;
  loop agent stdin.

(** The status that the operating system reports when the interpreter
    exits on [SystemExit(code)] with an integer code: the code is read as a
    C [long] and its low eight bits are the status, so that 256 gives 0 and
    -1 gives 255; a code that no [long] holds gives 255. *)
Definition os_status (code : Z) : Z :=
  if ((- 2 ^ 63 <=? code) && (code <? 2 ^ 63))%Z
  then (code mod 256)%Z
  else 255%Z.

(** The exit status of the process after [asyncio.run(main())], lines 85
    and 86: 0 when [main] returns; the status of the code of a
    [SystemExit]; else the interpreter's status for an uncaught
    exception. *)
Definition exit_status (c : completion unit) : Z :=
  match c with
  | Normal _ => 0
  | Raised e =>
      match exn_cls e with
      | SystemExit code => os_status code
      | KeyboardInterrupt => 130
      | _ => 1
      end
  end.

Definition program (stdin : list read) : list event * Z :=
  let (t, c) := main stdin in (t, exit_status c).

End Program.

Arguments mkEnv {Agent}.
Arguments env_parse_args {Agent}.
Arguments env_init_config {Agent}.
Arguments env_init_logger {Agent}.
Arguments env_init_models {Agent}.
Arguments env_create_agent {Agent}.
Arguments env_run {Agent}.
Arguments dispatch {Agent}.
Arguments loop {Agent}.
Arguments main {Agent}.
Arguments program {Agent}.

(** ** Observations on traces and inputs, for the statements below *)

(** [m] with the events [t] in front of its own. *)
Definition after {A} (t : list event) (m : M A) : M A :=
  (t ++ trace m, outcome m).

(** The tasks handed to [agent.run], in the order of the calls. *)
Fixpoint dispatched (t : list event) : list string :=
  match t with
  | [] => []
  | RunBegin task :: t' => task :: dispatched t'
  | _ :: t' => dispatched t'
  end.

(** The number of [input] calls, that is of prompts shown. *)
Fixpoint prompts (t : list event) : nat :=
  match t with
  | [] => 0
  | Input _ :: t' => S (prompts t')
  | _ :: t' => prompts t'
  end.

(** The number of [agent.run] calls entered and not yet left. *)
Fixpoint in_flight (t : list event) : Z :=
  match t with
  | [] => 0
  | RunBegin _ :: t' => in_flight t' + 1
  | RunReturn _ :: t' => in_flight t' - 1
  | RunRaise _ :: t' => in_flight t' - 1
  | _ :: t' => in_flight t'
  end.

(** The position of a stage in the pipeline. *)
Definition stage_index (s : stage) : nat :=
  match s with
  | ParseArgs => 0
  | InitConfig => 1
  | InitLogger => 2
  | InitModels => 3
  | CreateAgent => 4
  end.

(** Every character of [s] satisfies [p]. *)
Fixpoint string_forall (p : ascii -> bool) (s : string) : bool :=
  match s with
  | EmptyString => true
  | String c s' => p c && string_forall p s'
  end.

(** Equality of two strings up to the case of their letters. *)
Definition caseless_eq (a b : string) : Prop := PyStr.lower a = PyStr.lower b.

(** A line that is a quit command: its trimmed text is a quit token up to
    case. *)
Definition quit_line (l : string) : Prop :=
  exists tok, In tok quit_tokens /\ caseless_eq (PyStr.strip l) tok.

(** A line that is blank: empty, or white space only. *)
Definition blank_line (l : string) : Prop :=
  string_forall PyStr.isspace l = true.

(** A line that carries a task: neither a quit command nor blank. *)
Definition task_line (l : string) : Prop :=
  ~ quit_line l /\ ~ blank_line l.

(** The tasks a user enters, in order, up to the first quit command or
    failing read. *)
Fixpoint entered_tasks (stdin : list read) : list string :=
  match stdin with
  | Line l :: rest =>
      if PyStr.mem (PyStr.lower (PyStr.strip l)) quit_tokens then []
      else if PyStr.is_empty (PyStr.strip l) then entered_tasks rest
      else PyStr.strip l :: entered_tasks rest
  | _ => []
  end.

(** The strings printed, the messages logged on the info channel and those
    logged on the error channel, each in order. *)
Fixpoint printed (t : list event) : list string :=
  match t with
  | [] => []
  | Print s :: t' => s :: printed t'
  | _ :: t' => printed t'
  end.

Fixpoint info_logged (t : list event) : list string :=
  match t with
  | [] => []
  | LogInfo msg _ :: t' => msg :: info_logged t'
  | _ :: t' => info_logged t'
  end.

Fixpoint error_logged (t : list event) : list string :=
  match t with
  | [] => []
  | LogError msg :: t' => msg :: error_logged t'
  | _ :: t' => error_logged t'
  end.

(** Every line of [ls] carries a task and [run], called on them in turn
    from [agent], raises an [Exception] on each. *)
Fixpoint all_fail {Agent} (env : Env Agent) (agent : Agent) (ls : list string) : Prop :=
  match ls with
  | [] => True
  | l :: ls' =>
      task_line l /\
      match env_run env agent (PyStr.strip l) with
      | (agent', Raised e) => is_Exception e = true /\ all_fail env agent' ls'
      | (_, Normal _) => False
      end
  end.

(** Stage [s] is the first of the pipeline to fail, and raises [e]: the
    stages before it return, and the call of [s] on what they returned
    raises [e]. *)
Definition fails_at {Agent} (env : Env Agent) (s : stage) (e : exn) : Prop :=
  match s with
  | ParseArgs =>
      env_parse_args env = Raised e
  | InitConfig =>
      exists a,
        env_parse_args env = Normal a /\
        env_init_config env (args_config a) a = Raised e
  | InitLogger =>
      exists a c,
        env_parse_args env = Normal a /\
        env_init_config env (args_config a) a = Normal c /\
        env_init_logger env (log_path c) = Raised e
  | InitModels =>
      exists a c,
        env_parse_args env = Normal a /\
        env_init_config env (args_config a) a = Normal c /\
        env_init_logger env (log_path c) = Normal tt /\
        env_init_models env (use_local_proxy c) = Raised e
  | CreateAgent =>
      exists a c names,
        env_parse_args env = Normal a /\
        env_init_config env (args_config a) a = Normal c /\
        env_init_logger env (log_path c) = Normal tt /\
        env_init_models env (use_local_proxy c) = Normal names /\
        env_create_agent env c = Raised e
  end.

(** All five stages return: the configuration [c], the registered model
    names [names] and the root agent [agent]. *)
Definition starts {Agent} (env : Env Agent) (c : Config) (names : list string)
           (agent : Agent) : Prop :=
  exists a,
    env_parse_args env = Normal a /\
    env_init_config env (args_config a) a = Normal c /\
    env_init_logger env (log_path c) = Normal tt /\
    env_init_models env (use_local_proxy c) = Normal names /\
    env_create_agent env c = Normal agent.

(** The events of a pipeline whose stages all return, up to the banner. *)
Definition startup_trace (c : Config) (names : list string) : list event :=
  [ StageBegin ParseArgs; StageEnd ParseArgs;
    StageBegin InitConfig; StageEnd InitConfig;
    StageBegin InitLogger; StageEnd InitLogger;
    LogInfo ("| Logger initialized at: " ++ log_path c) [];
    LogInfo ("| Config:" ++ PyStr.nl ++ pretty_text c) [];
    StageBegin InitModels; StageEnd InitModels;
    LogInfo "| Registed models: %s" [PyStr.join ", " names];
    StageBegin CreateAgent; StageEnd CreateAgent;
    VisualizeTree ].

(** An exception that asks for a clean exit: a [SystemExit] whose code
    gives the status 0, as [sys.exit(0)] raises.  Any other exception is an
    error. *)
Definition clean_exit (e : exn) : bool :=
  match exn_cls e with
  | SystemExit code => (os_status code =? 0)%Z
  | _ => false
  end.

(** The calls of [agent.run] in [t] do not overlap and no line is read
    during one; [busy] tells whether a call is open when [t] starts, the
    result whether one is open when it ends. *)
Fixpoint serial (busy : bool) (t : list event) : option bool :=
  match t with
  | [] => Some busy
  | RunBegin _ :: t' => if busy then None else serial true t'
  | RunReturn _ :: t' => if busy then serial false t' else None
  | RunRaise _ :: t' => if busy then serial false t' else None
  | Input _ :: t' => if busy then None else serial false t'
  | _ :: t' => serial busy t'
  end.

(** The events of a session: those of the prompt, the surface, the log and
    the calls of [agent.run]. *)
Definition session_event (ev : event) : bool :=
  match ev with
  | StageBegin _ | StageEnd _ | StageRaise _ _ | VisualizeTree => false
  | _ => true
  end.

(** ** A stub environment, to run the program on concrete inputs *)

Module Stub.

Definition boom : exn := mkExn (ExceptionClass "RuntimeError") "boom failed".
Definition interrupt : exn := mkExn KeyboardInterrupt EmptyString.

(** A root agent that counts its calls; it answers [compute] and
    [status], is interrupted on [stop] and fails on anything else. *)
Definition run (calls : nat) (task : string) : nat * result string :=
  (S calls,
   if String.eqb task "compute" then Normal "42"
   else if String.eqb task "status" then Normal "ok"
   else if String.eqb task "stop" then Raised interrupt
   else Raised boom).

Definition args : Args := mkArgs "configs/config_custom.py" None.
Definition config : Config := mkConfig "log.txt" "{}" false.

Definition env : Env nat :=
  mkEnv (Normal args)
        (fun _ _ => Normal config)
        (fun _ => Normal tt)
        (fun _ => Normal ["A"; "B"])
        (fun _ => Normal 0)
        run.


End Stub.

(** ** The events of one dispatch *)

Definition processing_line (task : string) : string :=
  (PyStr.nl ++ "Processing task: " ++ task)%string.

Definition rule : string := PyStr.mul "-" 50.

(** The events of a dispatch whose [run] returns [res]. *)
Definition success_report (task res : string) : list event :=
  [ Print (processing_line task); Print rule;
    RunBegin task; RunReturn res;
    Print rule; Print ("Final Result: " ++ res);
    LogInfo ("| Result: " ++ res) [] ].

(** The events of a dispatch whose [run] raises an [Exception]. *)
Definition failure_report (task : string) (e : exn) : list event :=
  [ Print (processing_line task); Print rule;
    RunBegin task; RunRaise e;
    Print ("Error processing task: " ++ exn_str e);
    LogError ("Error processing task: " ++ exn_str e) ].

(** The events of a dispatch that an exception leaves uncaught. *)
Definition aborted_report (task : string) (e : exn) : list event :=
  [ Print (processing_line task); Print rule; RunBegin task; RunRaise e ].

(** ** How a session ends *)

(** How a session was cut short: [agent.run] raised [e], no [Exception],
    as the last event, and [e] left the loop. *)
Definition cut_short (m : M unit) : Prop :=
  exists t e,
    trace m = t ++ [RunRaise e] /\ outcome m = Raised e /\ is_Exception e = false.

(** The loop returned: on a quit command, after the farewell. *)
Definition left_by_quit (stdin : list read) (m : M unit) : Prop :=
  exists t before l rest,
    trace m = t ++ [Input prompt; Print "Goodbye!"] /\
    stdin = before ++ Line l :: rest /\
    quit_line l.

(** The loop was left by [e]: raised by [input], or by [agent.run] and no
    [Exception]. *)
Definition left_by_raise (e : exn) (m : M unit) : Prop :=
  (exists t, trace m = t ++ [Input prompt]) \/
  (exists t, trace m = t ++ [RunRaise e] /\ is_Exception e = false).

(** ** Further observations on sessions *)

(** What the calls of [agent.run] did, in order: the result returned or the
    exception raised. *)
Fixpoint run_outcomes (t : list event) : list (result string) :=
  match t with
  | [] => []
  | RunReturn res :: t' => Normal res :: run_outcomes t'
  | RunRaise e :: t' => Raised e :: run_outcomes t'
  | _ :: t' => run_outcomes t'
  end.

(** What [run] does on [tasks], called on them in turn, each call from the
    agent as the call before left it. *)
Fixpoint replay {Agent} (env : Env Agent) (agent : Agent) (tasks : list string)
  : list (result string) :=
  match tasks with
  | [] => []
  | task :: tasks' =>
      let (agent', r) := env_run env agent task in
      r :: replay env agent' tasks'
  end.

(** The message that line 78 logs on the info channel for an outcome of
    [agent.run], if any. *)
Definition info_line (r : result string) : list string :=
  match r with
  | Normal res => [("| Result: " ++ res)%string]
  | Raised _ => []
  end.

(** The message that line 81 logs on the error channel for an outcome of
    [agent.run], if any. *)
Definition error_line (r : result string) : list string :=
  match r with
  | Normal _ => []
  | Raised e =>
      if is_Exception e then [("Error processing task: " ++ exn_str e)%string]
      else []
  end.

(** The calls of the logger. *)
Definition is_log_event (ev : event) : bool :=
  match ev with
  | LogInfo _ _ | LogError _ | VisualizeTree => true
  | _ => false
  end.

(** The events of the interactive surface and of the agent's calls. *)
Definition is_surface_or_run (ev : event) : bool :=
  match ev with
  | Print _ | Input _ | RunBegin _ | RunReturn _ | RunRaise _ => true
  | _ => false
  end.

(** The read with the white space around its line removed. *)
Definition trim_read (r : read) : read :=
  match r with
  | Line l => Line (PyStr.strip l)
  | ReadRaise e => ReadRaise e
  end.

(** The test of line 68 on a line as read. *)
Definition blank_read (r : read) : bool :=
  match r with
  | Line l => PyStr.is_empty (PyStr.strip l)
  | ReadRaise _ => false
  end.

(** The input stream without its blank lines. *)
Definition drop_blank (stdin : list read) : list read :=
  filter (fun r => negb (blank_read r)) stdin.

(** The test of line 64 on a line as read. *)
Definition quit_test (l : string) : bool :=
  PyStr.mem (PyStr.lower (PyStr.strip l)) quit_tokens.

(** Two sessions that dispatch the same tasks with the same outcomes, log
    the same and end the same way. *)
Definition same_session (m1 m2 : M unit) : Prop :=
  outcome m1 = outcome m2 /\
  dispatched (trace m1) = dispatched (trace m2) /\
  run_outcomes (trace m1) = run_outcomes (trace m2) /\
  info_logged (trace m1) = info_logged (trace m2) /\
  error_logged (trace m1) = error_logged (trace m2).

(** An agent whose [run] raises nothing but [Exception]s. *)
Definition only_Exceptions {Agent} (env : Env Agent) : Prop :=
  forall (agent agent' : Agent) (task : string) (e : exn),
    env_run env agent task = (agent', Raised e) -> is_Exception e = true.

(** A second stub: an agent that answers [compute] and fails, with an
    [Exception], on anything else. *)
Module Calm.

Definition run (calls : nat) (task : string) : nat * result string :=
  (S calls,
   if String.eqb task "compute" then Normal "42" else Raised Stub.boom).

Definition env : Env nat :=
  mkEnv (Normal Stub.args)
        (fun _ _ => Normal Stub.config)
        (fun _ => Normal tt)
        (fun _ => Normal ["A"; "B"])
        (fun _ => Normal 0)
        run.

End Calm.

(** * Properties *)

Local Arguments String.append : simpl never.
Local Arguments PyStr.mul : simpl never.
Local Arguments PyStr.strip : simpl never.
Local Arguments PyStr.lower : simpl never.

(** ** Strings *)

Lemma lstrip_blank (l : string) :
  string_forall PyStr.isspace l = true -> PyStr.lstrip l = EmptyString.
Proof.
  induction l as [|c l IH]; simpl; intros H; [reflexivity|].
  apply andb_true_iff in H as [Hc Hl]. rewrite Hc. now apply IH.
Qed.

Lemma lstrip_empty_blank (l : string) :
  PyStr.lstrip l = EmptyString -> string_forall PyStr.isspace l = true.
Proof.
  induction l as [|c l IH]; simpl; intros H; [reflexivity|].
  destruct (PyStr.isspace c) eqn:E; [|discriminate].
  simpl. now apply IH.
Qed.

Lemma rstrip_lstrip_head (c : ascii) (s : string) :
  PyStr.isspace c = false -> PyStr.rstrip (String c s) <> EmptyString.
Proof.
  intros Hc. simpl. destruct (PyStr.rstrip s); [rewrite Hc|]; discriminate.
Qed.

Lemma lstrip_head (l : string) :
  PyStr.lstrip l = EmptyString \/
  exists c s, PyStr.lstrip l = String c s /\ PyStr.isspace c = false.
Proof.
  induction l as [|c l IH]; simpl; [now left|].
  destruct (PyStr.isspace c) eqn:E; [exact IH|].
  right. now exists c, l.
Qed.

(** A line strips to the empty string exactly when it is blank. *)
Lemma strip_empty_iff (l : string) :
  PyStr.strip l = EmptyString <-> blank_line l.
Proof.
  unfold blank_line, PyStr.strip. split.
  - intros H. destruct (lstrip_head l) as [E | (c & s & E & Hc)].
    + now apply lstrip_empty_blank.
    + rewrite E in H. now apply rstrip_lstrip_head in H.
  - intros H. now rewrite (lstrip_blank l H).
Qed.

Lemma is_empty_iff (s : string) : PyStr.is_empty s = true <-> s = EmptyString.
Proof. destruct s; simpl; split; congruence. Qed.

Lemma lower_quit_tokens (tok : string) :
  In tok quit_tokens -> PyStr.lower tok = tok.
Proof.
  unfold quit_tokens. simpl.
  intros [<- | [<- | [<- | []]]]; reflexivity.
Qed.

Lemma mem_In (x : string) (l : list string) : PyStr.mem x l = true <-> In x l.
Proof.
  unfold PyStr.mem. rewrite existsb_exists. split.
  - intros (y & Hy & E). apply String.eqb_eq in E. now subst.
  - intros H. exists x. split; [exact H | apply String.eqb_refl].
Qed.

(** The membership test of line 64 decides [quit_line]. *)
Lemma quit_test_iff (l : string) :
  PyStr.mem (PyStr.lower (PyStr.strip l)) quit_tokens = true <-> quit_line l.
Proof.
  rewrite mem_In. unfold quit_line, caseless_eq. split.
  - intros H. exists (PyStr.lower (PyStr.strip l)). split; [exact H|].
    symmetry. now apply lower_quit_tokens.
  - intros (tok & Hin & E). rewrite E, (lower_quit_tokens tok Hin). exact Hin.
Qed.

Lemma task_line_tests (l : string) :
  task_line l ->
  PyStr.mem (PyStr.lower (PyStr.strip l)) quit_tokens = false /\
  PyStr.is_empty (PyStr.strip l) = false.
Proof.
  intros [Hq Hb]. split.
  - destruct (PyStr.mem _ _) eqn:E; [|reflexivity].
    now apply quit_test_iff in E.
  - destruct (PyStr.is_empty _) eqn:E; [|reflexivity].
    now apply is_empty_iff, strip_empty_iff in E.
Qed.

Lemma blank_line_tests (l : string) :
  blank_line l ->
  PyStr.mem (PyStr.lower (PyStr.strip l)) quit_tokens = false /\
  PyStr.is_empty (PyStr.strip l) = true.
Proof.
  intros Hb. apply strip_empty_iff in Hb. rewrite Hb. split; reflexivity.
Qed.

(** ** The monad *)

Lemma after_nil {A} (m : M A) : after [] m = m.
Proof. now destruct m. Qed.

Lemma after_after {A} (t1 t2 : list event) (m : M A) :
  after t1 (after t2 m) = after (t1 ++ t2) m.
Proof. unfold after, trace, outcome. simpl. now rewrite app_assoc. Qed.

Lemma bind_emit {A} (ev : event) (k : M A) : (emit ev ;; k) = after [ev] k.
Proof. unfold bind, emit, after, trace, outcome. now destruct k. Qed.

Lemma bind_after {A B} (t : list event) (m : M A) (f : A -> M B) :
  bind (after t m) f = after t (bind m f).
Proof.
  destruct m as [t' [a|e]]; unfold after, bind, trace, outcome; simpl.
  - destruct (f a). simpl. now rewrite app_assoc.
  - reflexivity.
Qed.

Lemma bind_normal {A B} (t : list event) (a : A) (f : A -> M B) :
  bind (t, Normal a) f = after t (f a).
Proof. unfold bind, after, trace, outcome. now destruct (f a). Qed.

Lemma bind_raised {A B} (t : list event) (e : exn) (f : A -> M B) :
  bind (t, Raised e) f = (t, Raised e).
Proof. reflexivity. Qed.

Lemma trace_after {A} (t : list event) (m : M A) :
  trace (after t m) = t ++ trace m.
Proof. reflexivity. Qed.

Lemma outcome_after {A} (t : list event) (m : M A) :
  outcome (after t m) = outcome m.
Proof. reflexivity. Qed.

(** ** One pass of the loop, case by case *)

Section LoopSteps.

Context {Agent : Type} (env : Env Agent).

Lemma dispatch_returns (agent agent' : Agent) (task res : string) :
  env_run env agent task = (agent', Normal res) ->
  dispatch env agent task = (agent', (success_report task res, Normal tt)).
Proof. unfold dispatch. intros ->. reflexivity. Qed.

Lemma dispatch_caught (agent agent' : Agent) (task : string) (e : exn) :
  env_run env agent task = (agent', Raised e) ->
  is_Exception e = true ->
  dispatch env agent task = (agent', (failure_report task e, Normal tt)).
Proof.
  unfold dispatch. intros -> He. cbn. unfold try_except. cbn.
  rewrite He. reflexivity.
Qed.

Lemma dispatch_uncaught (agent agent' : Agent) (task : string) (e : exn) :
  env_run env agent task = (agent', Raised e) ->
  is_Exception e = false ->
  dispatch env agent task = (agent', (aborted_report task e, Raised e)).
Proof.
  unfold dispatch. intros -> He. cbn. unfold try_except. cbn.
  rewrite He. reflexivity.
Qed.

Lemma loop_eof (agent : Agent) :
  loop env agent [] = ([Input prompt], Raised EOFError).
Proof. reflexivity. Qed.

Lemma loop_read_raise (agent : Agent) (e : exn) (rest : list read) :
  loop env agent (ReadRaise e :: rest) = ([Input prompt], Raised e).
Proof. reflexivity. Qed.

Lemma loop_quit (agent : Agent) (l : string) (rest : list read) :
  quit_line l ->
  loop env agent (Line l :: rest) =
  ([Input prompt; Print "Goodbye!"], Normal tt).
Proof.
  intros H. apply quit_test_iff in H. cbn [loop]. rewrite H. reflexivity.
Qed.

Lemma loop_blank (agent : Agent) (l : string) (rest : list read) :
  blank_line l ->
  loop env agent (Line l :: rest) =
  after [Input prompt; Print "Please enter a task."] (loop env agent rest).
Proof.
  intros H. apply blank_line_tests in H as [Hq He].
  cbn [loop]. rewrite Hq, He.
  unfold print. now rewrite !bind_emit, after_after.
Qed.

Lemma loop_task (agent : Agent) (l : string) (rest : list read) :
  task_line l ->
  loop env agent (Line l :: rest) =
  after [Input prompt]
    (snd (dispatch env agent (PyStr.strip l)) ;;
     print next_task_line ;;
     loop env (fst (dispatch env agent (PyStr.strip l))) rest).
Proof.
  intros H. apply task_line_tests in H as [Hq He].
  cbn [loop]. rewrite Hq, He.
  destruct (dispatch env agent (PyStr.strip l)) as [agent' d]. cbn [fst snd].
  now rewrite bind_emit.
Qed.

Lemma loop_task_returns (agent agent' : Agent) (l res : string) (rest : list read) :
  task_line l ->
  env_run env agent (PyStr.strip l) = (agent', Normal res) ->
  loop env agent (Line l :: rest) =
  after (Input prompt :: success_report (PyStr.strip l) res ++ [Print next_task_line])
        (loop env agent' rest).
Proof.
  intros Ht Hr. rewrite (loop_task _ _ _ Ht), (dispatch_returns _ _ _ _ Hr).
  cbn [fst snd]. unfold print.
  rewrite bind_normal, bind_emit, !after_after. reflexivity.
Qed.

Lemma loop_task_caught (agent agent' : Agent) (l : string) (e : exn) (rest : list read) :
  task_line l ->
  env_run env agent (PyStr.strip l) = (agent', Raised e) ->
  is_Exception e = true ->
  loop env agent (Line l :: rest) =
  after (Input prompt :: failure_report (PyStr.strip l) e ++ [Print next_task_line])
        (loop env agent' rest).
Proof.
  intros Ht Hr He. rewrite (loop_task _ _ _ Ht), (dispatch_caught _ _ _ _ Hr He).
  cbn [fst snd]. unfold print.
  rewrite bind_normal, bind_emit, !after_after. reflexivity.
Qed.

Lemma loop_task_uncaught (agent agent' : Agent) (l : string) (e : exn) (rest : list read) :
  task_line l ->
  env_run env agent (PyStr.strip l) = (agent', Raised e) ->
  is_Exception e = false ->
  loop env agent (Line l :: rest) =
  (Input prompt :: aborted_report (PyStr.strip l) e, Raised e).
Proof.
  intros Ht Hr He. rewrite (loop_task _ _ _ Ht), (dispatch_uncaught _ _ _ _ Hr He).
  cbn [fst snd]. rewrite bind_raised. reflexivity.
Qed.

End LoopSteps.

(** ** Observations and concatenation *)

Lemma dispatched_app (t1 t2 : list event) :
  dispatched (t1 ++ t2) = dispatched t1 ++ dispatched t2.
Proof.
  induction t1 as [|ev t1 IH]; [reflexivity|].
  destruct ev; simpl; rewrite IH; reflexivity.
Qed.

Lemma prompts_app (t1 t2 : list event) :
  prompts (t1 ++ t2) = prompts t1 + prompts t2.
Proof.
  induction t1 as [|ev t1 IH]; [reflexivity|].
  destruct ev; simpl; rewrite IH; reflexivity.
Qed.

Lemma error_logged_app (t1 t2 : list event) :
  error_logged (t1 ++ t2) = error_logged t1 ++ error_logged t2.
Proof.
  induction t1 as [|ev t1 IH]; [reflexivity|].
  destruct ev; simpl; rewrite IH; reflexivity.
Qed.

Lemma in_flight_app (t1 t2 : list event) :
  in_flight (t1 ++ t2) = (in_flight t1 + in_flight t2)%Z.
Proof.
  induction t1 as [|ev t1 IH]; [reflexivity|].
  destruct ev; simpl; rewrite IH; lia.
Qed.

(** Every pass of the loop starts with the prompt. *)
Lemma loop_prompts_first {Agent} (env : Env Agent) (agent : Agent) (stdin : list read) :
  exists t, trace (loop env agent stdin) = Input prompt :: t.
Proof.
  destruct stdin as [|r rest]; cbn [loop]; rewrite bind_emit, trace_after;
    eexists; reflexivity.
Qed.

(** Whatever [run] does, a dispatch enters it once, with the task. *)
Lemma dispatch_cases {Agent} (env : Env Agent) (agent : Agent) (task : string) :
  (exists agent' res,
      env_run env agent task = (agent', Normal res) /\
      dispatch env agent task = (agent', (success_report task res, Normal tt))) \/
  (exists agent' e,
      env_run env agent task = (agent', Raised e) /\ is_Exception e = true /\
      dispatch env agent task = (agent', (failure_report task e, Normal tt))) \/
  (exists agent' e,
      env_run env agent task = (agent', Raised e) /\ is_Exception e = false /\
      dispatch env agent task = (agent', (aborted_report task e, Raised e))).
Proof.
  destruct (env_run env agent task) as [agent' [res|e]] eqn:E.
  - left. exists agent', res. split; [reflexivity|]. now apply dispatch_returns.
  - destruct (is_Exception e) eqn:He.
    + right; left. exists agent', e. repeat split; trivial.
      now apply dispatch_caught.
    + right; right. exists agent', e. repeat split; trivial.
      now apply dispatch_uncaught.
Qed.

Lemma loop_task_dispatches {Agent} (env : Env Agent) (agent : Agent)
      (l : string) (rest : list read) :
  task_line l ->
  In (RunBegin (PyStr.strip l)) (trace (loop env agent (Line l :: rest))).
Proof.
  intros Ht.
  destruct (dispatch_cases env agent (PyStr.strip l))
    as [(a & res & Hr & _) | [(a & e & Hr & He & _) | (a & e & Hr & He & _)]].
  - rewrite (loop_task_returns env _ _ _ _ rest Ht Hr), trace_after.
    simpl. auto 10.
  - rewrite (loop_task_caught env _ _ _ _ rest Ht Hr He), trace_after.
    simpl. auto 10.
  - rewrite (loop_task_uncaught env _ _ _ _ rest Ht Hr He).
    simpl. auto 10.
Qed.

(** ** Induction along the passes of the loop *)

Lemma line_cases (l : string) : quit_line l \/ blank_line l \/ task_line l.
Proof.
  destruct (PyStr.mem (PyStr.lower (PyStr.strip l)) quit_tokens) eqn:Hq.
  - left. now apply quit_test_iff.
  - destruct (PyStr.is_empty (PyStr.strip l)) eqn:He.
    + right; left. now apply strip_empty_iff, is_empty_iff.
    + right; right. split; intros H.
      * apply quit_test_iff in H. congruence.
      * apply strip_empty_iff, is_empty_iff in H. congruence.
Qed.

Section LoopInduction.

Context {Agent : Type} (env : Env Agent).
Variable P : Agent -> list read -> M unit -> Prop.

Hypothesis P_eof : forall agent,
  P agent [] ([Input prompt], Raised EOFError).
Hypothesis P_read_raise : forall agent e rest,
  P agent (ReadRaise e :: rest) ([Input prompt], Raised e).
Hypothesis P_quit : forall agent l rest,
  quit_line l ->
  P agent (Line l :: rest) ([Input prompt; Print "Goodbye!"], Normal tt).
Hypothesis P_blank : forall agent l rest,
  blank_line l ->
  P agent rest (loop env agent rest) ->
  P agent (Line l :: rest)
    (after [Input prompt; Print "Please enter a task."] (loop env agent rest)).
Hypothesis P_returns : forall agent agent' l res rest,
  task_line l ->
  env_run env agent (PyStr.strip l) = (agent', Normal res) ->
  P agent' rest (loop env agent' rest) ->
  P agent (Line l :: rest)
    (after (Input prompt :: success_report (PyStr.strip l) res ++ [Print next_task_line])
           (loop env agent' rest)).
Hypothesis P_caught : forall agent agent' l e rest,
  task_line l ->
  env_run env agent (PyStr.strip l) = (agent', Raised e) ->
  is_Exception e = true ->
  P agent' rest (loop env agent' rest) ->
  P agent (Line l :: rest)
    (after (Input prompt :: failure_report (PyStr.strip l) e ++ [Print next_task_line])
           (loop env agent' rest)).
Hypothesis P_uncaught : forall agent agent' l e rest,
  task_line l ->
  env_run env agent (PyStr.strip l) = (agent', Raised e) ->
  is_Exception e = false ->
  P agent (Line l :: rest)
    (Input prompt :: aborted_report (PyStr.strip l) e, Raised e).

Lemma loop_passes_ind (agent : Agent) (stdin : list read) :
  P agent stdin (loop env agent stdin).
Proof.
  revert agent. induction stdin as [|r rest IH]; intros agent.
  - rewrite loop_eof. apply P_eof.
  - destruct r as [l|e].
    + destruct (line_cases l) as [Hq | [Hb | Ht]].
      * rewrite (loop_quit env agent l rest Hq). now apply P_quit.
      * rewrite (loop_blank env agent l rest Hb). now apply P_blank.
      * destruct (env_run env agent (PyStr.strip l)) as [agent' [res|e]] eqn:Hr.
        -- rewrite (loop_task_returns env _ _ _ _ rest Ht Hr). now apply P_returns.
        -- destruct (is_Exception e) eqn:He.
           ++ rewrite (loop_task_caught env _ _ _ _ rest Ht Hr He).
              now apply P_caught.
           ++ rewrite (loop_task_uncaught env _ _ _ _ rest Ht Hr He).
              now apply (P_uncaught agent agent').
    + rewrite loop_read_raise. apply P_read_raise.
Qed.

End LoopInduction.

(** ** The whole of [main] *)

Lemma program_eq {Agent} (env : Env Agent) (stdin : list read) :
  program env stdin =
  (trace (main env stdin), exit_status (outcome (main env stdin))).
Proof. unfold program. now destruct (main env stdin). Qed.

Lemma main_starts {Agent} (env : Env Agent) (c : Config) (names : list string)
      (agent : Agent) (stdin : list read) :
  starts env c names agent ->
  main env stdin =
  after (startup_trace c names ++ map Print banner) (loop env agent stdin).
Proof.
  intros (a & Ha & Hc & Hl & Hm & Hg). unfold main, run_stage.
  rewrite Ha; cbn. rewrite Hc; cbn. rewrite Hl; cbn. rewrite Hm; cbn.
  rewrite Hg; cbn.
  unfold after, trace, outcome. destruct (loop env agent stdin) as [t r].
  reflexivity.
Qed.

Lemma main_fails {Agent} (env : Env Agent) (s : stage) (e : exn) (stdin : list read) :
  fails_at env s e ->
  exists c names n,
    main env stdin =
    (firstn n (startup_trace c names) ++ [StageBegin s; StageRaise s e], Raised e) /\
    n = match s with
        | ParseArgs => 0 | InitConfig => 2 | InitLogger => 4
        | InitModels => 8 | CreateAgent => 11
        end.
Proof.
  destruct s; cbn [fails_at].
  - intros Ha. exists (mkConfig EmptyString EmptyString false), [], 0.
    split; [|reflexivity]. unfold main, run_stage. rewrite Ha. reflexivity.
  - intros (a & Ha & Hc). exists (mkConfig EmptyString EmptyString false), [], 2.
    split; [|reflexivity]. unfold main, run_stage. rewrite Ha; cbn. rewrite Hc. reflexivity.
  - intros (a & c & Ha & Hc & Hl). exists c, [], 4.
    split; [|reflexivity]. unfold main, run_stage. rewrite Ha; cbn. rewrite Hc; cbn. rewrite Hl. reflexivity.
  - intros (a & c & Ha & Hc & Hl & Hm). exists c, [], 8.
    split; [|reflexivity]. unfold main, run_stage. rewrite Ha; cbn. rewrite Hc; cbn. rewrite Hl; cbn.
    rewrite Hm. reflexivity.
  - intros (a & c & names & Ha & Hc & Hl & Hm & Hg). exists c, names, 11.
    split; [|reflexivity]. unfold main, run_stage. rewrite Ha; cbn. rewrite Hc; cbn. rewrite Hl; cbn.
    rewrite Hm; cbn. rewrite Hg. reflexivity.
Qed.

(** The pipeline either starts the session or fails at one of its stages. *)
Lemma starts_or_fails {Agent} (env : Env Agent) :
  (exists c names agent, starts env c names agent) \/
  (exists s e, fails_at env s e).
Proof.
  destruct (env_parse_args env) as [a|e] eqn:Ha;
    [|right; now exists ParseArgs, e].
  destruct (env_init_config env (args_config a) a) as [c|e] eqn:Hc;
    [|right; exists InitConfig, e; now exists a].
  destruct (env_init_logger env (log_path c)) as [[]|e] eqn:Hl;
    [|right; exists InitLogger, e; now exists a, c].
  destruct (env_init_models env (use_local_proxy c)) as [names|e] eqn:Hm;
    [|right; exists InitModels, e; now exists a, c].
  destruct (env_create_agent env c) as [agent|e] eqn:Hg;
    [|right; exists CreateAgent, e; now exists a, c, names].
  left. exists c, names, agent. now exists a.
Qed.

(** The loop emits session events only. *)
Lemma loop_session_events {Agent} (env : Env Agent) (agent : Agent) (stdin : list read) :
  forallb session_event (trace (loop env agent stdin)) = true.
Proof.
  apply (loop_passes_ind env
           (fun _ _ m => forallb session_event (trace m) = true));
    intros; rewrite ?trace_after, ?forallb_app; try reflexivity;
    cbn; assumption.
Qed.

Lemma loop_event_session {Agent} (env : Env Agent) (agent : Agent)
      (stdin : list read) (ev : event) :
  In ev (trace (loop env agent stdin)) -> session_event ev = true.
Proof.
  intros H. pose proof (loop_session_events env agent stdin) as Hs.
  rewrite forallb_forall in Hs. now apply Hs.
Qed.

Lemma loop_no_stage_begin {Agent} (env : Env Agent) (agent : Agent)
      (stdin : list read) (pre post : list event) (s : stage) :
  trace (loop env agent stdin) = pre ++ StageBegin s :: post -> False.
Proof.
  intros H.
  assert (Hin : In (StageBegin s) (trace (loop env agent stdin))).
  { rewrite H. apply in_elt. }
  apply loop_event_session in Hin. discriminate.
Qed.

(** Peels a trace that is known event by event off the front of
    [pre ++ ev :: post]. *)
Ltac peel_trace :=
  repeat match goal with
         | H : _ :: _ = ?pre ++ _ :: _ |- _ =>
             destruct pre as [|? pre]; cbn [app] in H;
             inversion H; subst; clear H
         | H : [] = ?pre ++ _ :: _ |- _ =>
             destruct pre; discriminate H
         end.

Ltac stage_goal :=
  match goal with
  | |- forall s : stage, _ => intros []; stage_goal
  | |- _ < _ -> _ => cbn [stage_index]; intros ?; try lia; stage_goal
  | |- In _ _ => simpl; auto 30
  | |- ~ In _ _ => simpl; intuition discriminate
  | |- False => eauto using loop_no_stage_begin
  | _ => idtac
  end.

(** ** Serial dispatch *)

Lemma serial_app (t1 t2 : list event) (b : bool) :
  serial b (t1 ++ t2) =
  match serial b t1 with
  | Some b' => serial b' t2
  | None => None
  end.
Proof.
  revert b. induction t1 as [|ev t1 IH]; intros b; [reflexivity|].
  destruct ev, b; cbn [app serial]; auto.
Qed.

Lemma loop_serial {Agent} (env : Env Agent) (agent : Agent) (stdin : list read) :
  serial false (trace (loop env agent stdin)) = Some false.
Proof.
  apply (loop_passes_ind env
           (fun _ _ m => serial false (trace m) = Some false));
    intros; rewrite ?trace_after, ?serial_app; try reflexivity;
    cbn; assumption.
Qed.

Lemma serial_sound (pre post : list event) (b b' : bool) :
  serial b (pre ++ post) = Some b' ->
  (0 <= Z.b2z b + in_flight pre <= 1)%Z /\
  (forall p post', post = Input p :: post' -> (Z.b2z b + in_flight pre = 0)%Z).
Proof.
  revert b. induction pre as [|ev pre IH]; intros b H.
  - cbn [app in_flight] in *. split.
    + destruct b; simpl; lia.
    + intros p post' ->. destruct b; [discriminate H | reflexivity].
  - cbn [app] in H.
    destruct ev, b; cbn [serial] in H; try discriminate H;
      apply IH in H; cbn [in_flight Z.b2z] in *;
      (split; [lia | intros p post' Hp; pose proof (proj2 H p post' Hp); lia]).
Qed.

(** ** The tasks entered and the tasks dispatched *)

Lemma entered_quit (l : string) (rest : list read) :
  quit_line l -> entered_tasks (Line l :: rest) = [].
Proof. intros H. apply quit_test_iff in H. cbn [entered_tasks]. now rewrite H. Qed.

Lemma entered_blank (l : string) (rest : list read) :
  blank_line l -> entered_tasks (Line l :: rest) = entered_tasks rest.
Proof. intros H. apply blank_line_tests in H as [Hq He]. cbn [entered_tasks]. now rewrite Hq, He. Qed.

Lemma entered_task (l : string) (rest : list read) :
  task_line l ->
  entered_tasks (Line l :: rest) = PyStr.strip l :: entered_tasks rest.
Proof. intros H. apply task_line_tests in H as [Hq He]. cbn [entered_tasks]. now rewrite Hq, He. Qed.

Lemma cut_short_after (t0 : list event) (m : M unit) :
  cut_short m -> cut_short (after t0 m).
Proof.
  intros (t & e & Ht & Ho & He). exists (t0 ++ t), e.
  rewrite trace_after, outcome_after, Ht, app_assoc. auto.
Qed.

Lemma loop_dispatch_order {Agent} (env : Env Agent) (agent : Agent) (stdin : list read) :
  exists later,
    entered_tasks stdin = dispatched (trace (loop env agent stdin)) ++ later /\
    (later = [] \/ cut_short (loop env agent stdin)).
Proof.
  apply (loop_passes_ind env
           (fun _ stdin m =>
              exists later,
                entered_tasks stdin = dispatched (trace m) ++ later /\
                (later = [] \/ cut_short m))).
  - intros _. exists []. auto.
  - intros _ e rest. exists []. auto.
  - intros _ l rest H. exists []. rewrite (entered_quit l rest H). auto.
  - intros ag l rest H (later & IH & Hc). exists later.
    rewrite (entered_blank l rest H), trace_after, dispatched_app, IH.
    split; [reflexivity|]. destruct Hc; auto using cut_short_after.
  - intros ag ag' l res rest H Hr (later & IH & Hc). exists later.
    rewrite (entered_task l rest H), trace_after, dispatched_app, IH.
    split; [reflexivity|]. destruct Hc; auto using cut_short_after.
  - intros ag ag' l e rest H Hr He (later & IH & Hc). exists later.
    rewrite (entered_task l rest H), trace_after, dispatched_app, IH.
    split; [reflexivity|]. destruct Hc; auto using cut_short_after.
  - intros ag ag' l e rest H Hr He. exists (entered_tasks rest).
    rewrite (entered_task l rest H). split; [reflexivity|]. right.
    exists [Input prompt; Print (processing_line (PyStr.strip l)); Print rule;
            RunBegin (PyStr.strip l)], e.
    auto.
Qed.

(** ** How the loop ends *)

Lemma left_by_quit_after (t0 : list event) (r : read) (stdin : list read) (m : M unit) :
  left_by_quit stdin m -> left_by_quit (r :: stdin) (after t0 m).
Proof.
  intros (t & before & l & rest & Ht & Hs & Hq).
  exists (t0 ++ t), (r :: before), l, rest.
  rewrite trace_after, Ht, app_assoc, Hs. auto.
Qed.

Lemma left_by_raise_after (t0 : list event) (e : exn) (m : M unit) :
  left_by_raise e m -> left_by_raise e (after t0 m).
Proof.
  intros [(t & Ht) | (t & Ht & He)]; [left | right]; exists (t0 ++ t);
    rewrite trace_after, Ht, app_assoc; auto.
Qed.

Lemma loop_exit_paths {Agent} (env : Env Agent) (agent : Agent) (stdin : list read) :
  match outcome (loop env agent stdin) with
  | Normal _ => left_by_quit stdin (loop env agent stdin)
  | Raised e => left_by_raise e (loop env agent stdin)
  end.
Proof.
  apply (loop_passes_ind env
           (fun _ stdin m =>
              match outcome m with
              | Normal _ => left_by_quit stdin m
              | Raised e => left_by_raise e m
              end)).
  - intros _. left. now exists [].
  - intros _ e rest. left. now exists [].
  - intros _ l rest H. exists [], [], l, rest. auto.
  - intros ag l rest _ IH. rewrite outcome_after.
    destruct (outcome (loop env ag rest));
      auto using left_by_quit_after, left_by_raise_after.
  - intros ag ag' l res rest _ _ IH. rewrite outcome_after.
    destruct (outcome (loop env ag' rest));
      auto using left_by_quit_after, left_by_raise_after.
  - intros ag ag' l e rest _ _ _ IH. rewrite outcome_after.
    destruct (outcome (loop env ag' rest));
      auto using left_by_quit_after, left_by_raise_after.
  - intros ag ag' l e rest _ _ He. right.
    exists [Input prompt; Print (processing_line (PyStr.strip l)); Print rule;
            RunBegin (PyStr.strip l)].
    auto.
Qed.

(** ** The lines of the scenarios *)

Lemma task_line_compute : task_line "compute".
Proof.
  split.
  - intros (tok & Hin & E). unfold caseless_eq in E.
    rewrite (lower_quit_tokens tok Hin) in E. subst tok.
    vm_compute in Hin. intuition discriminate.
  - unfold blank_line. vm_compute. discriminate.
Defined.

Lemma quit_line_quit : quit_line "quit".
Proof. exists "quit". split; [simpl; auto | reflexivity]. Defined.

(** * The claims *)

(** C1. When [agent.run] raises an [Exception] on a task, the [except] of
    the dispatch catches it: the error line with [str(e)] is printed and
    logged on the error channel, the next-task line follows, and the loop
    goes on with the rest of the input, from the agent as the failed call
    left it.  A task that follows is therefore dispatched as well; and
    after any number of consecutive failing tasks the loop has read and
    dispatched each of them, logged one error for each, and still goes
    on. *)
Theorem task_failure_isolated {Agent} (env : Env Agent) :
  (forall (agent agent' : Agent) (l : string) (e : exn) (rest : list read),
      task_line l ->
      env_run env agent (PyStr.strip l) = (agent', Raised e) ->
      is_Exception e = true ->
      loop env agent (Line l :: rest) =
        after [ Input prompt;
                Print (PyStr.nl ++ "Processing task: " ++ PyStr.strip l);
                Print (PyStr.mul "-" 50);
                RunBegin (PyStr.strip l);
                RunRaise e;
                Print ("Error processing task: " ++ exn_str e);
                LogError ("Error processing task: " ++ exn_str e);
                Print (PyStr.nl ++ "Enter your next task (or 'quit' to exit):") ]
              (loop env agent' rest) /\
      forall (l2 : string) (rest2 : list read),
        rest = Line l2 :: rest2 -> task_line l2 ->
        dispatched (trace (loop env agent (Line l :: rest))) =
          PyStr.strip l :: dispatched (trace (loop env agent' rest)) /\
        In (RunBegin (PyStr.strip l2)) (trace (loop env agent' rest))) /\
  (forall (ls : list string) (agent : Agent) (rest : list read),
      all_fail env agent ls ->
      exists (t : list event) (agent' : Agent),
        loop env agent (map Line ls ++ rest) = after t (loop env agent' rest) /\
        prompts t = List.length ls /\
        dispatched t = map PyStr.strip ls /\
        List.length (error_logged t) = List.length ls).
Proof.
  split.
  - intros agent agent' l e rest Ht Hr He.
    rewrite (loop_task_caught env _ _ _ _ rest Ht Hr He). split; [reflexivity|].
    intros l2 rest2 -> Ht2. split.
    + rewrite trace_after. reflexivity.
    + now apply loop_task_dispatches.
  - induction ls as [|l ls IH]; intros agent rest H.
    + exists [], agent. rewrite after_nil. repeat split.
    + destruct H as [Ht H].
      destruct (env_run env agent (PyStr.strip l)) as [agent1 [res|e]] eqn:Hr;
        [contradiction|].
      destruct H as [He H].
      destruct (IH agent1 rest H) as (t & agent' & Hl & Hp & Hd & Hg).
      exists ((Input prompt :: failure_report (PyStr.strip l) e ++ [Print next_task_line]) ++ t),
             agent'.
      change (map Line (l :: ls) ++ rest) with (Line l :: (map Line ls ++ rest)).
      rewrite (loop_task_caught env _ _ _ _ (map Line ls ++ rest) Ht Hr He), Hl.
      rewrite after_after. split; [reflexivity|].
      rewrite prompts_app, dispatched_app, error_logged_app, length_app.
      rewrite Hp, Hd, Hg. repeat split.
Qed.

Lemma task_line_boom : task_line "boom".
Proof.
  split.
  - intros (tok & Hin & E). unfold caseless_eq in E.
    rewrite (lower_quit_tokens tok Hin) in E. subst tok.
    vm_compute in Hin. intuition discriminate.
  - unfold blank_line. vm_compute. discriminate.
Defined.

Lemma task_failure_isolated_witness :
  task_line "boom" /\
  env_run Stub.env 0 (PyStr.strip "boom") = (1, Raised Stub.boom) /\
  is_Exception Stub.boom = true /\
  all_fail Stub.env 0 ["boom"; "boom"] /\
  outcome (loop Stub.env 0 [Line "boom"; Line "status"; Line "quit"]) =
    outcome (loop Stub.env 1 [Line "status"; Line "quit"]) /\
  exists (t : list event) (agent' : nat),
    loop Stub.env 0 (map Line ["boom"; "boom"] ++ [Line "status"; Line "quit"]) =
      after t (loop Stub.env agent' [Line "status"; Line "quit"]) /\
    prompts t = 2 /\
    dispatched t = ["boom"; "boom"] /\
    List.length (error_logged t) = 2.
Proof.
  assert (Hr : env_run Stub.env 0 (PyStr.strip "boom") = (1, Raised Stub.boom))
    by reflexivity.
  assert (He : is_Exception Stub.boom = true) by reflexivity.
  assert (H : all_fail Stub.env 0 ["boom"; "boom"]).
  { simpl. repeat split; try reflexivity; apply task_line_boom. }
  split; [apply task_line_boom|]. split; [exact Hr|]. split; [exact He|].
  split; [exact H|]. split.
  - destruct (proj1 (task_failure_isolated Stub.env) 0 1 "boom" Stub.boom
                    [Line "status"; Line "quit"] task_line_boom Hr He) as [-> _].
    reflexivity.
  - exact (proj2 (task_failure_isolated Stub.env) ["boom"; "boom"] 0
                 [Line "status"; Line "quit"] H).
Defined.

(** C2. The stages of the pipeline run in the order argument parsing,
    configuration, logger, model registry, agent tree: whenever the call of
    a stage is entered, the call of every earlier stage has returned, and
    that stage was not entered before; and whenever a prompt is shown, the
    calls of all five stages have returned. *)
Theorem init_stages_in_order {Agent} (env : Env Agent) (stdin : list read) :
  (forall (pre post : list event) (s : stage),
      trace (main env stdin) = pre ++ StageBegin s :: post ->
      (forall s', stage_index s' < stage_index s -> In (StageEnd s') pre) /\
      ~ In (StageBegin s) pre) /\
  (forall (pre post : list event) (p : string),
      trace (main env stdin) = pre ++ Input p :: post ->
      forall s, In (StageEnd s) pre).
Proof.
  destruct (starts_or_fails env)
    as [(c & names & agent & Hs) | (s0 & e & Hf)].
  - rewrite (main_starts env c names agent stdin Hs), trace_after.
    cbn [startup_trace banner map app]. split.
    + intros pre post s H. peel_trace;
        try (exfalso; eauto using loop_no_stage_begin; fail);
        (split; [intros []; stage_goal | stage_goal]).
    + intros pre post p H. peel_trace. intros []; simpl; auto 30.
  - destruct (main_fails env s0 e stdin Hf) as (c & names & n & -> & ->).
    cbn [trace fst]. split.
    + intros pre post s H.
      destruct s0; cbn in H; peel_trace;
        (split; [intros []; stage_goal | stage_goal]).
    + intros pre post p H.
      destruct s0; cbn in H; peel_trace.
Qed.

Lemma init_stages_in_order_witness :
  trace (main Stub.env [Line "quit"]) =
    firstn 11 (startup_trace Stub.config ["A"; "B"])
    ++ StageBegin CreateAgent :: skipn 12 (trace (main Stub.env [Line "quit"])) /\
  stage_index InitModels < stage_index CreateAgent /\
  In (StageEnd InitModels) (firstn 11 (startup_trace Stub.config ["A"; "B"])).
Proof.
  assert (H : trace (main Stub.env [Line "quit"]) =
              firstn 11 (startup_trace Stub.config ["A"; "B"])
              ++ StageBegin CreateAgent
                 :: skipn 12 (trace (main Stub.env [Line "quit"])))
    by reflexivity.
  assert (Hlt : stage_index InitModels < stage_index CreateAgent) by (simpl; lia).
  split; [exact H|]. split; [exact Hlt|].
  exact (proj1 (proj1 (init_stages_in_order Stub.env [Line "quit"])
                      _ _ CreateAgent H) InitModels Hlt).
Defined.



(** C4. A line whose trimmed text equals, up to case, one of the quit tokens
    [quit], [exit] and [q] ends the loop: after the prompt that read it the
    farewell is printed and nothing else happens, so no further prompt is
    shown and [agent.run] is not called for the line; [main] returns, and
    the exit status is 0.  So a process whose pipeline started the session
    and whose first line is such a line shows the banner, one prompt and
    the farewell, and exits with status 0. *)
Theorem quit_line_terminates {Agent} (env : Env Agent) (agent : Agent)
        (l : string) (rest : list read) :
  quit_line l ->
  loop env agent (Line l :: rest) = ([Input prompt; Print "Goodbye!"], Normal tt) /\
  prompts (trace (loop env agent (Line l :: rest))) = 1 /\
  dispatched (trace (loop env agent (Line l :: rest))) = [] /\
  exit_status (outcome (loop env agent (Line l :: rest))) = 0%Z /\
  forall (c : Config) (names : list string),
    starts env c names agent ->
    program env (Line l :: rest) =
      (startup_trace c names ++ map Print banner ++ [Input prompt; Print "Goodbye!"],
       0%Z).
Proof.
  intros H. rewrite (loop_quit env agent l rest H). repeat split.
  intros c names Hs.
  rewrite program_eq, (main_starts env c names agent _ Hs).
  rewrite (loop_quit env agent l rest H).
  unfold after, trace, outcome. cbn [fst snd exit_status].
  now rewrite <- app_assoc.
Qed.

Lemma quit_line_terminates_witness :
  quit_line "  Quit  " /\
  loop Stub.env 0 [Line "  Quit  "; Line "compute"] =
  ([Input prompt; Print "Goodbye!"], Normal tt).
Proof.
  assert (H : quit_line "  Quit  ").
  { exists "quit". split; [simpl; auto | reflexivity]. }
  split; [exact H|].
  exact (proj1 (quit_line_terminates Stub.env 0 "  Quit  " [Line "compute"] H)).
Defined.

(** C5. A line that is empty or holds white space only makes the loop
    prompt again: the pass prints its notice and calls [agent.run] not at
    all, and the loop goes on with the same agent and the rest of the
    input, starting with a prompt. *)
Theorem blank_line_reprompts {Agent} (env : Env Agent) (agent : Agent)
        (l : string) (rest : list read) :
  blank_line l ->
  loop env agent (Line l :: rest) =
    after [Input prompt; Print "Please enter a task."] (loop env agent rest) /\
  dispatched (trace (loop env agent (Line l :: rest))) =
    dispatched (trace (loop env agent rest)) /\
  exists t, trace (loop env agent rest) = Input prompt :: t.
Proof.
  intros H. rewrite (loop_blank env agent l rest H). repeat split.
  apply loop_prompts_first.
Qed.

Lemma blank_line_reprompts_witness :
  blank_line "   " /\
  loop Stub.env 0 [Line "   "; Line "quit"] =
  after [Input prompt; Print "Please enter a task."] (loop Stub.env 0 [Line "quit"]).
Proof.
  assert (H : blank_line "   ") by reflexivity.
  split; [exact H|].
  exact (proj1 (blank_line_reprompts Stub.env 0 "   " [Line "quit"] H)).
Defined.

(** C6. In a session at most one call of [agent.run] is open at any point,
    and none while the next line is read: a line is read only after the
    previous call has returned or raised.  The tasks are dispatched in the
    order entered, all of them unless an exception that is no [Exception]
    leaves a call and cuts the session short.  The loop returns only on a
    quit command, after the farewell; any other end is an exception that
    nothing handles, raised by the read or let through by the dispatch. *)
Theorem one_task_in_flight {Agent} (env : Env Agent) (agent : Agent)
        (stdin : list read) :
  (forall pre post : list event,
      trace (loop env agent stdin) = pre ++ post ->
      (0 <= in_flight pre <= 1)%Z) /\
  (forall (pre post : list event) (p : string),
      trace (loop env agent stdin) = pre ++ Input p :: post ->
      in_flight pre = 0%Z) /\
  (exists later : list string,
      entered_tasks stdin = dispatched (trace (loop env agent stdin)) ++ later /\
      (later = [] \/ cut_short (loop env agent stdin))) /\
  match outcome (loop env agent stdin) with
  | Normal _ => left_by_quit stdin (loop env agent stdin)
  | Raised e => left_by_raise e (loop env agent stdin)
  end.
Proof.
  pose proof (loop_serial env agent stdin) as Hs.
  split; [|split; [|split]].
  - intros pre post H. rewrite H in Hs.
    apply serial_sound in Hs as [Hb _]. cbn [Z.b2z] in Hb. lia.
  - intros pre post p H. rewrite H in Hs.
    apply serial_sound in Hs as [_ Hi]. exact (Hi p post eq_refl).
  - apply loop_dispatch_order.
  - apply loop_exit_paths.
Qed.

Lemma one_task_in_flight_witness :
  trace (loop Stub.env 0 [Line "boom"; Line "compute"; Line "quit"]) =
    firstn 8 (trace (loop Stub.env 0 [Line "boom"; Line "compute"; Line "quit"]))
    ++ Input prompt
       :: skipn 9 (trace (loop Stub.env 0 [Line "boom"; Line "compute"; Line "quit"])) /\
  in_flight
    (firstn 8 (trace (loop Stub.env 0 [Line "boom"; Line "compute"; Line "quit"])))
  = 0%Z.
Proof.
  assert (H : trace (loop Stub.env 0 [Line "boom"; Line "compute"; Line "quit"]) =
              firstn 8 (trace (loop Stub.env 0 [Line "boom"; Line "compute"; Line "quit"]))
              ++ Input prompt
                 :: skipn 9 (trace (loop Stub.env 0
                                      [Line "boom"; Line "compute"; Line "quit"])))
    by reflexivity.
  split; [exact H|].
  exact (proj1 (proj2 (one_task_in_flight Stub.env 0
                         [Line "boom"; Line "compute"; Line "quit"]))
               _ _ prompt H).
Defined.

(** C7. Once the pipeline has started the session, the banner is printed
    before anything else on the interactive surface, and its fourth line
    names the three agents.  A dispatch prints the processing line and a
    rule, and then, when [agent.run] returns, a second rule and the final
    result line with the result; when it raises an [Exception], the error
    line.  With an agent that returns [42] for the task [compute], the
    input [compute], [quit] prints the line [Final Result: 42] and the
    process exits with status 0. *)
Theorem output_framing {Agent} (env : Env Agent) :
  (forall (c : Config) (names : list string) (agent : Agent) (stdin : list read),
      starts env c names agent ->
      exists t0,
        trace (main env stdin) =
          t0 ++ [ Print (PyStr.nl ++ PyStr.mul "=" 60);
                  Print "DeepResearchAgent - Hierarchical Agent Interactive Mode";
                  Print (PyStr.mul "=" 60);
                  Print "Available agents: deep_analyzer_agent, browser_use_agent, deep_researcher_agent";
                  Print "Enter your task (or 'quit' to exit):" ]
             ++ trace (loop env agent stdin) /\
        printed t0 = [] /\ prompts t0 = 0) /\
  (forall (agent agent' : Agent) (task res : string),
      env_run env agent task = (agent', Normal res) ->
      printed (trace (snd (dispatch env agent task))) =
        [ (PyStr.nl ++ "Processing task: " ++ task)%string;
          PyStr.mul "-" 50;
          PyStr.mul "-" 50;
          ("Final Result: " ++ res)%string ]) /\
  (forall (agent agent' : Agent) (task : string) (e : exn),
      env_run env agent task = (agent', Raised e) ->
      is_Exception e = true ->
      printed (trace (snd (dispatch env agent task))) =
        [ (PyStr.nl ++ "Processing task: " ++ task)%string;
          PyStr.mul "-" 50;
          ("Error processing task: " ++ exn_str e)%string ]) /\
  (forall (c : Config) (names : list string) (agent agent' : Agent),
      starts env c names agent ->
      env_run env agent "compute" = (agent', Normal "42") ->
      printed (fst (program env [Line "compute"; Line "quit"])) =
        banner ++ [ (PyStr.nl ++ "Processing task: compute")%string;
                    PyStr.mul "-" 50;
                    PyStr.mul "-" 50;
                    "Final Result: 42";
                    (PyStr.nl ++ "Enter your next task (or 'quit' to exit):")%string;
                    "Goodbye!" ] /\
      snd (program env [Line "compute"; Line "quit"]) = 0%Z).
Proof.
  split; [|split; [|split]].
  - intros c names agent stdin Hs. exists (startup_trace c names).
    rewrite (main_starts env c names agent stdin Hs), trace_after, <- app_assoc.
    repeat split.
  - intros agent agent' task res Hr.
    rewrite (dispatch_returns env _ _ _ _ Hr). reflexivity.
  - intros agent agent' task e Hr He.
    rewrite (dispatch_caught env _ _ _ _ Hr He). reflexivity.
  - intros c names agent agent' Hs Hr.
    rewrite program_eq, (main_starts env c names agent _ Hs).
    rewrite (loop_task_returns env agent agent' "compute" "42" [Line "quit"]
               task_line_compute Hr).
    rewrite (loop_quit env agent' "quit" [] quit_line_quit).
    split; reflexivity.
Qed.

Lemma output_framing_witness :
  starts Stub.env Stub.config ["A"; "B"] 0 /\
  env_run Stub.env 0 "compute" = (1, Normal "42") /\
  In "Final Result: 42" (printed (fst (program Stub.env [Line "compute"; Line "quit"]))) /\
  snd (program Stub.env [Line "compute"; Line "quit"]) = 0%Z.
Proof.
  assert (Hs : starts Stub.env Stub.config ["A"; "B"] 0).
  { exists Stub.args. repeat split. }
  assert (Hr : env_run Stub.env 0 "compute" = (1, Normal "42")) by reflexivity.
  split; [exact Hs|]. split; [exact Hr|].
  destruct (proj2 (proj2 (proj2 (output_framing Stub.env)))
              Stub.config ["A"; "B"] 0 1 Hs Hr) as [Hp Hz].
  split; [|exact Hz].
  rewrite Hp. simpl. auto 20.
Defined.

(** C8. An exception raised by reading the next line is outside the [try]
    of the dispatch: at the end of the input stream [input] raises
    [EOFError], which leaves [main] uncaught although it is an [Exception],
    and the process ends with a non-zero status; so does whatever else the
    read raises, whether an [Exception] or not, with nothing printed or
    logged after the prompt. *)
Theorem read_error_ends_session {Agent} (env : Env Agent) (agent : Agent) :
  loop env agent [] = ([Input prompt], Raised EOFError) /\
  is_Exception EOFError = true /\
  exit_status (outcome (loop env agent [])) <> 0%Z /\
  forall (e : exn) (rest : list read),
    loop env agent (ReadRaise e :: rest) = ([Input prompt], Raised e).
Proof.
  repeat split. discriminate.
Qed.

(** C9. The [except] of the dispatch catches [Exception] and its
    subclasses only.  When [agent.run] raises anything else
    ([KeyboardInterrupt], [asyncio.CancelledError], ...), the exception
    leaves the loop and [main]: nothing is printed or logged after the
    call, no error line and no further prompt, and the rest of the input
    is not read.  The dispatch lets an exception of [agent.run] through
    exactly when it is no [Exception]. *)
Theorem non_Exception_ends_session {Agent} (env : Env Agent)
        (agent agent' : Agent) (l : string) (e : exn) (rest : list read) :
  task_line l ->
  env_run env agent (PyStr.strip l) = (agent', Raised e) ->
  (is_Exception e = false ->
     loop env agent (Line l :: rest) =
       ([ Input prompt;
          Print (PyStr.nl ++ "Processing task: " ++ PyStr.strip l);
          Print (PyStr.mul "-" 50);
          RunBegin (PyStr.strip l);
          RunRaise e ],
        Raised e) /\
     prompts (trace (loop env agent (Line l :: rest))) = 1 /\
     error_logged (trace (loop env agent (Line l :: rest))) = []) /\
  (outcome (snd (dispatch env agent (PyStr.strip l))) = Raised e <->
   is_Exception e = false).
Proof.
  intros Ht Hr. split.
  - intros He. rewrite (loop_task_uncaught env _ _ _ _ rest Ht Hr He).
    repeat split.
  - destruct (is_Exception e) eqn:He.
    + rewrite (dispatch_caught env _ _ _ _ Hr He). cbn. split; discriminate.
    + rewrite (dispatch_uncaught env _ _ _ _ Hr He). cbn. split; reflexivity.
Qed.

Lemma task_line_stop : task_line "stop".
Proof.
  split.
  - intros (tok & Hin & E). unfold caseless_eq in E.
    rewrite (lower_quit_tokens tok Hin) in E. subst tok.
    vm_compute in Hin. intuition discriminate.
  - unfold blank_line. vm_compute. discriminate.
Defined.

Lemma non_Exception_ends_session_witness :
  task_line "stop" /\
  env_run Stub.env 0 (PyStr.strip "stop") = (1, Raised Stub.interrupt) /\
  outcome (loop Stub.env 0 [Line "stop"; Line "compute"]) = Raised Stub.interrupt.
Proof.
  split; [apply task_line_stop|]. split; [reflexivity|].
  destruct (non_Exception_ends_session Stub.env 0 1 "stop" Stub.interrupt
              [Line "compute"] task_line_stop eq_refl) as [H _].
  destruct (H eq_refl) as [-> _]. reflexivity.
Defined.

(** C10. When the dispatch of a task fails, that is [agent.run] raises an
    [Exception], the processing line and the opening rule are printed
    before the call and the error line after it; the closing rule and the
    final result line are not printed.  The log receives the result on the
    info channel when [agent.run] returns and only then, and the error on
    the error channel when [agent.run] raises an [Exception] and only
    then. *)
Theorem failed_dispatch_report {Agent} (env : Env Agent) (agent : Agent)
        (task : string) :
  (forall (agent' : Agent) (e : exn),
      env_run env agent task = (agent', Raised e) ->
      is_Exception e = true ->
      trace (snd (dispatch env agent task)) =
        [ Print (PyStr.nl ++ "Processing task: " ++ task);
          Print (PyStr.mul "-" 50);
          RunBegin task;
          RunRaise e;
          Print ("Error processing task: " ++ exn_str e);
          LogError ("Error processing task: " ++ exn_str e) ] /\
      info_logged (trace (snd (dispatch env agent task))) = []) /\
  (forall (agent' : Agent) (res : string),
      env_run env agent task = (agent', Normal res) ->
      info_logged (trace (snd (dispatch env agent task))) =
        [ ("| Result: " ++ res)%string ] /\
      error_logged (trace (snd (dispatch env agent task))) = []) /\
  (info_logged (trace (snd (dispatch env agent task))) <> [] ->
   exists agent' res, env_run env agent task = (agent', Normal res)) /\
  (error_logged (trace (snd (dispatch env agent task))) <> [] ->
   exists agent' e,
     env_run env agent task = (agent', Raised e) /\ is_Exception e = true).
Proof.
  split; [|split; [|split]].
  - intros agent' e Hr He. rewrite (dispatch_caught env _ _ _ _ Hr He).
    split; reflexivity.
  - intros agent' res Hr. rewrite (dispatch_returns env _ _ _ _ Hr).
    split; reflexivity.
  - intros H.
    destruct (dispatch_cases env agent task)
      as [(a & res & Hr & _) | [(a & e & _ & _ & Hd) | (a & e & _ & _ & Hd)]];
      [now exists a, res | rewrite Hd in H; now elim H ..].
  - intros H.
    destruct (dispatch_cases env agent task)
      as [(a & res & _ & Hd) | [(a & e & Hr & He & _) | (a & e & _ & _ & Hd)]];
      [rewrite Hd in H; now elim H | now exists a, e | rewrite Hd in H; now elim H].
Qed.

Lemma failed_dispatch_report_witness :
  env_run Stub.env 0 "boom" = (1, Raised Stub.boom) /\
  is_Exception Stub.boom = true /\
  printed (trace (snd (dispatch Stub.env 0 "boom"))) =
    [ (PyStr.nl ++ "Processing task: boom")%string;
      PyStr.mul "-" 50;
      "Error processing task: boom failed" ].
Proof.
  assert (Hr : env_run Stub.env 0 "boom" = (1, Raised Stub.boom)) by reflexivity.
  assert (He : is_Exception Stub.boom = true) by reflexivity.
  split; [exact Hr|]. split; [exact He|].
  destruct (proj1 (failed_dispatch_report Stub.env 0 "boom") 1 Stub.boom Hr He)
    as [-> _].
  reflexivity.
Defined.

(** * The scenarios of the specification, run on the stub *)

(** A task that fails, a task that succeeds, then [quit]: the error line,
    the final result and the farewell, with status 0. *)
Example scenario_error_isolation :
  let (t, status) := program Stub.env [Line "boom"; Line "status"; Line "quit"] in
  printed t =
    banner ++
    [ (PyStr.nl ++ "Processing task: boom")%string;
      PyStr.mul "-" 50;
      "Error processing task: boom failed";
      (PyStr.nl ++ "Enter your next task (or 'quit' to exit):")%string;
      (PyStr.nl ++ "Processing task: status")%string;
      PyStr.mul "-" 50;
      PyStr.mul "-" 50;
      "Final Result: ok";
      (PyStr.nl ++ "Enter your next task (or 'quit' to exit):")%string;
      "Goodbye!" ] /\
  dispatched t = ["boom"; "status"] /\
  prompts t = 3 /\
  status = 0%Z.
Proof. vm_compute. repeat split. Qed.

(** An interrupt inside [agent.run] ends the session at once. *)
Example scenario_interrupt :
  program Stub.env [Line " stop "; Line "status"; Line "quit"] =
  (startup_trace Stub.config ["A"; "B"] ++ map Print banner ++
   [ Input prompt;
     Print (PyStr.nl ++ "Processing task: stop");
     Print (PyStr.mul "-" 50);
     RunBegin "stop";
     RunRaise Stub.interrupt ],
   130%Z).
Proof. reflexivity. Qed.

(** The input stream ends without a quit command. *)
Example scenario_end_of_input :
  let (t, status) := program Stub.env [Line "compute"] in
  dispatched t = ["compute"] /\ prompts t = 2 /\ status = 1%Z.
Proof. vm_compute. repeat split. Qed.

(** * Further properties of the loop and of [main] *)

(** ** Trimming twice *)

Lemma rstrip_cons_nonspace (c : ascii) (s : string) :
  PyStr.isspace c = false ->
  PyStr.rstrip (String c s) = String c (PyStr.rstrip s).
Proof.
  intros Hc. cbn [PyStr.rstrip].
  destruct (PyStr.rstrip s); [now rewrite Hc | reflexivity].
Qed.

Lemma rstrip_idempotent (s : string) :
  PyStr.rstrip (PyStr.rstrip s) = PyStr.rstrip s.
Proof.
  induction s as [|c s IH]; [reflexivity|].
  cbn [PyStr.rstrip]. destruct (PyStr.rstrip s) as [|d r] eqn:E.
  - destruct (PyStr.isspace c) eqn:Hc; [reflexivity|].
    cbn [PyStr.rstrip]. now rewrite Hc.
  - change (PyStr.rstrip (String c (String d r)))
      with (match PyStr.rstrip (String d r) with
            | EmptyString =>
                if PyStr.isspace c then EmptyString else String c EmptyString
            | String _ _ as r' => String c r'
            end).
    now rewrite IH.
Qed.

Lemma strip_idempotent (l : string) :
  PyStr.strip (PyStr.strip l) = PyStr.strip l.
Proof.
  unfold PyStr.strip.
  destruct (lstrip_head l) as [E | (c & s & E & Hc)]; rewrite E.
  - reflexivity.
  - rewrite (rstrip_cons_nonspace c s Hc).
    cbn [PyStr.lstrip]. rewrite Hc.
    now rewrite (rstrip_cons_nonspace c _ Hc), rstrip_idempotent.
Qed.

Lemma trim_read_idempotent (r : read) : trim_read (trim_read r) = trim_read r.
Proof. destruct r; cbn [trim_read]; [now rewrite strip_idempotent | reflexivity]. Qed.

(** ** More observations and concatenation *)

Lemma run_outcomes_app (t1 t2 : list event) :
  run_outcomes (t1 ++ t2) = run_outcomes t1 ++ run_outcomes t2.
Proof.
  induction t1 as [|ev t1 IH]; [reflexivity|].
  destruct ev; simpl; rewrite IH; reflexivity.
Qed.

Lemma info_logged_app (t1 t2 : list event) :
  info_logged (t1 ++ t2) = info_logged t1 ++ info_logged t2.
Proof.
  induction t1 as [|ev t1 IH]; [reflexivity|].
  destruct ev; simpl; rewrite IH; reflexivity.
Qed.

(** X1. White space around a line never changes what the loop does: on
    an input stream and on the same stream with every line trimmed
    beforehand the loop emits the same events and ends the same way. *)
Theorem loop_ignores_surrounding_space {Agent} (env : Env Agent)
        (stdin : list read) (agent : Agent) :
  loop env agent (map trim_read stdin) = loop env agent stdin.
Proof.
  revert agent. induction stdin as [|r rest IH]; intros agent; [reflexivity|].
  destruct r as [l|e]; [|reflexivity].
  cbn [map trim_read loop]. rewrite strip_idempotent.
  destruct (PyStr.mem (PyStr.lower (PyStr.strip l)) quit_tokens); [reflexivity|].
  destruct (PyStr.is_empty (PyStr.strip l)).
  - now rewrite IH.
  - destruct (dispatch env agent (PyStr.strip l)) as [agent' d]. now rewrite IH.
Qed.

Lemma task_line_stripped (l : string) :
  task_line l ->
  PyStr.strip l <> EmptyString /\
  PyStr.strip (PyStr.strip l) = PyStr.strip l /\
  PyStr.lstrip (PyStr.strip l) = PyStr.strip l /\
  PyStr.rstrip (PyStr.strip l) = PyStr.strip l /\
  ~ In (PyStr.lower (PyStr.strip l)) quit_tokens.
Proof.
  intros Ht. apply task_line_tests in Ht as [Hq He].
  split; [|split; [|split; [|split]]].
  - intros E. rewrite E in He. discriminate.
  - apply strip_idempotent.
  - unfold PyStr.strip.
    destruct (lstrip_head l) as [E | (c & s & E & Hc)]; rewrite E.
    + reflexivity.
    + rewrite (rstrip_cons_nonspace c s Hc). cbn [PyStr.lstrip]. now rewrite Hc.
  - unfold PyStr.strip. apply rstrip_idempotent.
  - intros Hin. apply mem_In in Hin. congruence.
Qed.

(** X2. [agent.run] only ever receives a task that is not empty, has no
    white space at either end and is not a quit token, whatever the input
    stream holds. *)
Theorem dispatched_tasks_are_trimmed {Agent} (env : Env Agent) (agent : Agent)
        (stdin : list read) (task : string) :
  In task (dispatched (trace (loop env agent stdin))) ->
  task <> EmptyString /\
  PyStr.strip task = task /\
  PyStr.lstrip task = task /\
  PyStr.rstrip task = task /\
  ~ In (PyStr.lower task) quit_tokens.
Proof.
  revert task.
  apply (loop_passes_ind env
           (fun _ _ m =>
              forall task, In task (dispatched (trace m)) ->
                task <> EmptyString /\
                PyStr.strip task = task /\
                PyStr.lstrip task = task /\
                PyStr.rstrip task = task /\
                ~ In (PyStr.lower task) quit_tokens)).
  1-3: (intros; cbn in *; contradiction).
  - intros ag l rest _ IH task. rewrite trace_after, dispatched_app. exact (IH task).
  - intros ag ag' l res rest Ht _ IH task.
    rewrite trace_after, dispatched_app. intros H. apply in_app_or in H as [H | H].
    + cbn in H. destruct H as [<- | []]. now apply task_line_stripped.
    + exact (IH task H).
  - intros ag ag' l e rest Ht _ _ IH task.
    rewrite trace_after, dispatched_app. intros H. apply in_app_or in H as [H | H].
    + cbn in H. destruct H as [<- | []]. now apply task_line_stripped.
    + exact (IH task H).
  - intros ag ag' l e rest Ht _ _ task H.
    cbn in H. destruct H as [<- | []]. now apply task_line_stripped.
Qed.

Lemma dispatched_tasks_are_trimmed_witness :
  In "boom" (dispatched (trace (loop Stub.env 0 [Line "  boom "; Line "quit"]))) /\
  PyStr.strip "boom" = "boom".
Proof.
  assert (H : In "boom" (dispatched (trace (loop Stub.env 0
                                              [Line "  boom "; Line "quit"]))))
    by (vm_compute; auto).
  split; [exact H|].
  exact (proj1 (proj2 (dispatched_tasks_are_trimmed Stub.env 0
                         [Line "  boom "; Line "quit"] "boom" H))).
Defined.

(** X3. The agent keeps its state from one task to the next, also across
    failed tasks: what the calls of [agent.run] return or raise during a
    session is what [run] gives on the dispatched tasks when each call
    starts from the agent as the call before left it. *)
Theorem session_threads_agent {Agent} (env : Env Agent) (agent : Agent)
        (stdin : list read) :
  run_outcomes (trace (loop env agent stdin)) =
  replay env agent (dispatched (trace (loop env agent stdin))).
Proof.
  apply (loop_passes_ind env
           (fun agent _ m =>
              run_outcomes (trace m) = replay env agent (dispatched (trace m)))).
  1-3: reflexivity.
  - intros ag l rest _ IH.
    now rewrite trace_after, run_outcomes_app, dispatched_app.
  - intros ag ag' l res rest _ Hr IH.
    rewrite trace_after, run_outcomes_app, dispatched_app.
    cbn [run_outcomes dispatched success_report app replay].
    now rewrite Hr, IH.
  - intros ag ag' l e rest _ Hr _ IH.
    rewrite trace_after, run_outcomes_app, dispatched_app.
    cbn [run_outcomes dispatched failure_report app replay].
    now rewrite Hr, IH.
  - intros ag ag' l e rest _ Hr _.
    cbn [trace fst run_outcomes dispatched aborted_report replay].
    now rewrite Hr.
Qed.

(** X4. Over a whole session the log follows the calls of [agent.run] one
    for one: the info channel holds the result line of each call that
    returned, the error channel the error line of each call that raised an
    [Exception], both in the order of the calls and nothing else; a call
    that raised anything else leaves no line on either channel. *)
Theorem session_log_follows_runs {Agent} (env : Env Agent) (agent : Agent)
        (stdin : list read) :
  info_logged (trace (loop env agent stdin)) =
    flat_map info_line (run_outcomes (trace (loop env agent stdin))) /\
  error_logged (trace (loop env agent stdin)) =
    flat_map error_line (run_outcomes (trace (loop env agent stdin))).
Proof.
  apply (loop_passes_ind env
           (fun _ _ m =>
              info_logged (trace m) = flat_map info_line (run_outcomes (trace m)) /\
              error_logged (trace m) = flat_map error_line (run_outcomes (trace m)))).
  1-3: (intros; split; reflexivity).
  - intros ag l rest _ [IHi IHe].
    rewrite trace_after, run_outcomes_app, info_logged_app, error_logged_app.
    split; [exact IHi | exact IHe].
  - intros ag ag' l res rest _ _ [IHi IHe].
    rewrite trace_after, run_outcomes_app, info_logged_app, error_logged_app,
      flat_map_app, flat_map_app, <- IHi, <- IHe.
    split; reflexivity.
  - intros ag ag' l e rest _ _ He [IHi IHe].
    rewrite trace_after, run_outcomes_app, info_logged_app, error_logged_app,
      flat_map_app, flat_map_app, <- IHi, <- IHe.
    split; [reflexivity|].
    cbn [run_outcomes failure_report app flat_map error_line]. rewrite He.
    reflexivity.
  - intros ag ag' l e rest _ _ He.
    cbn [trace fst run_outcomes aborted_report flat_map error_line info_line app].
    rewrite He. split; reflexivity.
Qed.

(** X5. Nothing that follows a quit command on the input stream is read:
    the loop behaves the same whatever comes after the first quit line;
    and likewise for what comes after a read that raises. *)
Theorem input_after_quit_is_ignored {Agent} (env : Env Agent)
        (before : list read) (agent : Agent) (l : string) (e : exn)
        (rest rest' : list read) :
  quit_line l ->
  loop env agent (before ++ Line l :: rest) =
    loop env agent (before ++ Line l :: rest') /\
  loop env agent (before ++ ReadRaise e :: rest) =
    loop env agent (before ++ ReadRaise e :: rest').
Proof.
  intros Hq. revert agent.
  induction before as [|r before IH]; intros agent.
  - cbn [app]. rewrite !(loop_quit env agent l _ Hq), !loop_read_raise.
    split; reflexivity.
  - cbn [app]. destruct r as [l0|e0]; [|rewrite !loop_read_raise; split; reflexivity].
    destruct (line_cases l0) as [H0 | [H0 | H0]].
    + rewrite !(loop_quit env agent l0 _ H0). split; reflexivity.
    + rewrite !(loop_blank env agent l0 _ H0).
      destruct (IH agent) as [-> ->]. split; reflexivity.
    + destruct (env_run env agent (PyStr.strip l0)) as [agent' [res|e1]] eqn:Hr.
      * rewrite !(loop_task_returns env _ _ _ _ _ H0 Hr).
        destruct (IH agent') as [-> ->]. split; reflexivity.
      * destruct (is_Exception e1) eqn:He.
        -- rewrite !(loop_task_caught env _ _ _ _ _ H0 Hr He).
           destruct (IH agent') as [-> ->]. split; reflexivity.
        -- rewrite !(loop_task_uncaught env _ _ _ _ _ H0 Hr He).
           split; reflexivity.
Qed.

Lemma input_after_quit_is_ignored_witness :
  quit_line "quit" /\
  loop Stub.env 0 ([Line "boom"] ++ Line "quit" :: [Line "compute"]) =
  loop Stub.env 0 ([Line "boom"] ++ Line "quit" :: []).
Proof.
  split; [exact quit_line_quit|].
  exact (proj1 (input_after_quit_is_ignored Stub.env [Line "boom"] 0 "quit"
                  EOFError [Line "compute"] [] quit_line_quit)).
Defined.

(** ** Sessions up to blank lines *)

Lemma same_session_refl (m : M unit) : same_session m m.
Proof. repeat split. Qed.

Lemma same_session_after (t : list event) (m1 m2 : M unit) :
  same_session m1 m2 -> same_session (after t m1) (after t m2).
Proof.
  intros (Ho & Hd & Hr & Hi & He). unfold same_session.
  rewrite !trace_after, !outcome_after, !dispatched_app, !run_outcomes_app,
    !info_logged_app, !error_logged_app.
  rewrite Ho, Hd, Hr, Hi, He. repeat split.
Qed.

Lemma same_session_reprompt (m1 m2 : M unit) :
  same_session m1 m2 ->
  same_session m1 (after [Input prompt; Print "Please enter a task."] m2).
Proof.
  intros (Ho & Hd & Hr & Hi & He). unfold same_session.
  rewrite !trace_after, !outcome_after, !dispatched_app, !run_outcomes_app,
    !info_logged_app, !error_logged_app.
  cbn [dispatched run_outcomes info_logged error_logged app].
  repeat split; assumption.
Qed.

Lemma kept_read (l : string) :
  ~ blank_line l -> blank_read (Line l) = false.
Proof.
  intros H. cbn [blank_read].
  destruct (PyStr.is_empty (PyStr.strip l)) eqn:E; [|reflexivity].
  now apply is_empty_iff, strip_empty_iff in E.
Qed.

Lemma quit_line_not_blank (l : string) : quit_line l -> ~ blank_line l.
Proof.
  intros Hq Hb. apply quit_test_iff in Hq.
  apply blank_line_tests in Hb as [Hb _]. congruence.
Qed.

(** X6. Blank lines change nothing but the prompts: on an input stream and
    on the same stream without its blank lines the loop dispatches the same
    tasks, gets the same outcomes from [agent.run], writes the same lines
    to the log and ends the same way. *)
Theorem blank_lines_are_ignored {Agent} (env : Env Agent) (stdin : list read)
        (agent : Agent) :
  same_session (loop env agent (drop_blank stdin)) (loop env agent stdin).
Proof.
  revert agent. induction stdin as [|r rest IH]; intros agent.
  - apply same_session_refl.
  - destruct r as [l|e].
    + destruct (line_cases l) as [Hq | [Hb | Ht]].
      * unfold drop_blank. cbn [filter].
        rewrite (kept_read l (quit_line_not_blank l Hq)). cbn [negb].
        rewrite !(loop_quit env agent l _ Hq). apply same_session_refl.
      * unfold drop_blank. cbn [filter blank_read].
        rewrite (proj2 (blank_line_tests l Hb)). cbn [negb].
        rewrite (loop_blank env agent l rest Hb).
        apply same_session_reprompt, IH.
      * unfold drop_blank. cbn [filter].
        rewrite (kept_read l (proj2 Ht)). cbn [negb].
        destruct (env_run env agent (PyStr.strip l)) as [agent' [res|e]] eqn:Hr.
        -- rewrite !(loop_task_returns env _ _ _ _ _ Ht Hr).
           apply same_session_after, IH.
        -- destruct (is_Exception e) eqn:He.
           ++ rewrite !(loop_task_caught env _ _ _ _ _ Ht Hr He).
              apply same_session_after, IH.
           ++ rewrite !(loop_task_uncaught env _ _ _ _ _ Ht Hr He).
              apply same_session_refl.
    + unfold drop_blank. cbn [filter blank_read negb].
      rewrite !loop_read_raise. apply same_session_refl.
Qed.

(** X7. The loop shows one prompt for each read: the prompts of a session
    never outnumber the reads that the input stream holds by more than
    one, and they do so only when the stream is exhausted, in which case
    the session ends with [EOFError]. *)
Theorem one_prompt_per_read {Agent} (env : Env Agent) (agent : Agent)
        (stdin : list read) :
  prompts (trace (loop env agent stdin)) <= List.length stdin + 1 /\
  (prompts (trace (loop env agent stdin)) = List.length stdin + 1 ->
   outcome (loop env agent stdin) = Raised EOFError).
Proof.
  apply (loop_passes_ind env
           (fun _ stdin m =>
              prompts (trace m) <= List.length stdin + 1 /\
              (prompts (trace m) = List.length stdin + 1 ->
               outcome m = Raised EOFError))).
  - intros _. split; [cbn; lia | reflexivity].
  - intros _ e rest. cbn. split; lia.
  - intros _ l rest _. cbn. split; lia.
  - intros ag l rest _ [IHl IHe].
    rewrite trace_after, outcome_after, prompts_app. cbn [prompts List.length].
    split; [lia | intros H; apply IHe; lia].
  - intros ag ag' l res rest _ _ [IHl IHe].
    rewrite trace_after, outcome_after, prompts_app.
    cbn [prompts List.length success_report app].
    split; [lia | intros H; apply IHe; lia].
  - intros ag ag' l e rest _ _ _ [IHl IHe].
    rewrite trace_after, outcome_after, prompts_app.
    cbn [prompts List.length failure_report app].
    split; [lia | intros H; apply IHe; lia].
  - intros ag ag' l e rest _ _ _. cbn. split; lia.
Qed.

Lemma one_prompt_per_read_witness :
  prompts (trace (loop Stub.env 0 [Line "compute"; Line " "])) =
    List.length [Line "compute"; Line " "] + 1 /\
  outcome (loop Stub.env 0 [Line "compute"; Line " "]) = Raised EOFError.
Proof.
  assert (H : prompts (trace (loop Stub.env 0 [Line "compute"; Line " "])) =
              List.length [Line "compute"; Line " "] + 1) by reflexivity.
  split; [exact H|].
  exact (proj2 (one_prompt_per_read Stub.env 0 [Line "compute"; Line " "]) H).
Defined.

Lemma quit_test_true (l : string) : quit_line l -> quit_test l = true.
Proof. intros H. now apply quit_test_iff. Qed.

Lemma quit_test_false (l : string) : ~ quit_line l -> quit_test l = false.
Proof.
  intros H. unfold quit_test.
  destruct (PyStr.mem _ _) eqn:E; [|reflexivity]. now apply quit_test_iff in E.
Qed.

(** X8. With an agent whose [run] raises nothing but [Exception]s and an
    input stream of lines, every task entered before the first quit line
    is dispatched, and the session ends in one of two ways: it returns,
    with exit status 0, when the stream holds a quit line; otherwise the
    stream runs out and the session ends with [EOFError] and exit status
    1, although every task was processed. *)
Theorem lines_end_by_quit_or_eof {Agent} (env : Env Agent) (ls : list string)
        (agent : Agent) :
  only_Exceptions env ->
  dispatched (trace (loop env agent (map Line ls))) = entered_tasks (map Line ls) /\
  outcome (loop env agent (map Line ls)) =
    (if existsb quit_test ls then Normal tt else Raised EOFError) /\
  exit_status (outcome (loop env agent (map Line ls))) =
    (if existsb quit_test ls then 0 else 1)%Z.
Proof.
  intros Hx. revert agent. induction ls as [|l ls IH]; intros agent.
  - repeat split.
  - cbn [map existsb]. destruct (line_cases l) as [Hq | [Hb | Ht]].
    + rewrite (loop_quit env agent l _ Hq), (entered_quit l _ Hq),
        (quit_test_true l Hq).
      repeat split.
    + rewrite (loop_blank env agent l _ Hb), (entered_blank l _ Hb),
        (quit_test_false l (fun Hq => quit_line_not_blank l Hq Hb)).
      rewrite trace_after, outcome_after, dispatched_app. cbn [orb].
      exact (IH agent).
    + rewrite (entered_task l _ Ht), (quit_test_false l (proj1 Ht)). cbn [orb].
      destruct (env_run env agent (PyStr.strip l)) as [agent' [res|e]] eqn:Hr.
      * rewrite (loop_task_returns env _ _ _ _ _ Ht Hr).
        rewrite trace_after, outcome_after, dispatched_app.
        destruct (IH agent') as (-> & -> & ->). repeat split.
      * rewrite (loop_task_caught env _ _ _ _ _ Ht Hr (Hx _ _ _ _ Hr)).
        rewrite trace_after, outcome_after, dispatched_app.
        destruct (IH agent') as (-> & -> & ->). repeat split.
Qed.

Lemma calm_only_Exceptions : only_Exceptions Calm.env.
Proof.
  intros agent agent' task e. cbn [env_run Calm.env]. unfold Calm.run.
  destruct (String.eqb task "compute"); intros H; inversion H. reflexivity.
Defined.

Lemma lines_end_by_quit_or_eof_witness :
  only_Exceptions Calm.env /\
  outcome (loop Calm.env 0 (map Line ["boom"; "compute"])) = Raised EOFError /\
  dispatched (trace (loop Calm.env 0 (map Line ["boom"; "compute"]))) =
    ["boom"; "compute"].
Proof.
  split; [exact calm_only_Exceptions|].
  destruct (lines_end_by_quit_or_eof Calm.env ["boom"; "compute"] 0
              calm_only_Exceptions) as (Hd & Ho & _).
  split; [exact Ho | exact Hd].
Defined.

(** X9. An exit status of 0 means that the user quit: when the process
    ends with status 0, either the pipeline started the session and the
    loop returned on a quit line after the farewell, or an exception that
    asks for a clean exit (a [SystemExit] whose code gives the status 0,
    such as 0 or 256) ended [main]. *)
Theorem status_zero_means_quit {Agent} (env : Env Agent) (stdin : list read) :
  snd (program env stdin) = 0%Z ->
  (exists c names agent,
      starts env c names agent /\
      outcome (main env stdin) = Normal tt /\
      left_by_quit stdin (loop env agent stdin)) \/
  (exists e, outcome (main env stdin) = Raised e /\ clean_exit e = true).
Proof.
  rewrite program_eq. cbn [snd]. intros Hz.
  assert (Hclean : forall e, exit_status (Raised e) = 0%Z -> clean_exit e = true).
  { intros e. unfold exit_status, clean_exit.
    destruct (exn_cls e) as [ | | |code| ]; try discriminate.
    intros H. now apply Z.eqb_eq. }
  destruct (outcome (main env stdin)) as [[]|e] eqn:Ho.
  - left. destruct (starts_or_fails env)
      as [(c & names & agent & Hs) | (s0 & e & Hf)].
    + exists c, names, agent. split; [exact Hs|]. split; [reflexivity|].
      rewrite (main_starts env c names agent stdin Hs), outcome_after in Ho.
      pose proof (loop_exit_paths env agent stdin) as Hp.
      now rewrite Ho in Hp.
    + destruct (main_fails env s0 e stdin Hf) as (c & names & n & Hm & _).
      rewrite Hm in Ho. discriminate.
  - right. exists e. split; [reflexivity | now apply Hclean].
Qed.

Lemma status_zero_means_quit_witness :
  snd (program Stub.env [Line "boom"; Line "q"]) = 0%Z /\
  outcome (main Stub.env [Line "boom"; Line "q"]) = Normal tt.
Proof.
  assert (H : snd (program Stub.env [Line "boom"; Line "q"]) = 0%Z) by reflexivity.
  split; [exact H|].
  destruct (status_zero_means_quit Stub.env [Line "boom"; Line "q"] H)
    as [(c & names & agent & _ & Ho & _) | (e & Ho & _)].
  - exact Ho.
  - discriminate Ho.
Defined.

(** ** The logger and the session within [main] *)

Ltac find_in := simpl; repeat (first [left; reflexivity | right]).

Ltac placed_goal :=
  split;
  [ intros Hlog; first [discriminate Hlog | find_in]
  | intros Hsurf; first [discriminate Hsurf | split; [find_in | intros []; find_in]] ].

(** X10. [main] calls the logger only once it is initialized, and prints,
    prompts and runs the agent only once the agent tree is built and
    shown: in every trace of [main], whether the pipeline starts the
    session or fails, a call of the logger comes after the return of the
    logger's initialization, and a print, a prompt or an event of
    [agent.run] comes after the return of all five stages and after the
    rendering of the agent tree. *)
Theorem logger_and_surface_after_init {Agent} (env : Env Agent)
        (stdin : list read) (pre post : list event) (ev : event) :
  trace (main env stdin) = pre ++ ev :: post ->
  (is_log_event ev = true -> In (StageEnd InitLogger) pre) /\
  (is_surface_or_run ev = true ->
   In VisualizeTree pre /\ forall s, In (StageEnd s) pre).
Proof.
  destruct (starts_or_fails env)
    as [(c & names & agent & Hs) | (s0 & e & Hf)].
  - rewrite (main_starts env c names agent stdin Hs), trace_after.
    cbn [startup_trace banner map app]. intros H.
    peel_trace; placed_goal.
  - destruct (main_fails env s0 e stdin Hf) as (c & names & n & -> & ->).
    cbn [trace fst]. intros H.
    destruct s0; cbn in H; peel_trace; placed_goal.
Qed.

Lemma logger_and_surface_after_init_witness :
  trace (main Stub.env [Line "quit"]) =
    firstn 6 (startup_trace Stub.config ["A"; "B"])
    ++ LogInfo "| Logger initialized at: log.txt" []
       :: skipn 7 (trace (main Stub.env [Line "quit"])) /\
  In (StageEnd InitLogger) (firstn 6 (startup_trace Stub.config ["A"; "B"])).
Proof.
  assert (H : trace (main Stub.env [Line "quit"]) =
              firstn 6 (startup_trace Stub.config ["A"; "B"])
              ++ LogInfo "| Logger initialized at: log.txt" []
                 :: skipn 7 (trace (main Stub.env [Line "quit"])))
    by reflexivity.
  split; [exact H|].
  exact (proj1 (logger_and_surface_after_init Stub.env [Line "quit"] _ _ _ H)
               eq_refl).
Defined.

(** ** Exit statuses of [SystemExit] *)

(** The codes 256 and -256 wrap to the status 0, -1 to 255, and a code
    beyond a C [long] gives 255. *)
Example os_status_wraps :
  map os_status [0; 2; 255; 256; 257; -1; -256; 2 ^ 32 + 3; 2 ^ 63 - 1; 2 ^ 63;
                 - 2 ^ 63; - 2 ^ 63 - 1]%Z
  = [0; 2; 255; 0; 1; 255; 0; 3; 255; 255; 0; 255]%Z.
Proof. reflexivity. Qed.

(** A stage that raises [SystemExit(256)] ends the process with status 0:
    such an exception asks for a clean exit. *)
Example scenario_exit_256 :
  let env := mkEnv (Raised (mkExn (SystemExit 256) "256"))
                   (env_init_config Stub.env) (env_init_logger Stub.env)
                   (env_init_models Stub.env) (env_create_agent Stub.env)
                   (env_run Stub.env) in
  program env [Line "quit"] =
    ([StageBegin ParseArgs; StageRaise ParseArgs (mkExn (SystemExit 256) "256")],
     0%Z) /\
  clean_exit (mkExn (SystemExit 256) "256") = true.
Proof. split; reflexivity. Qed.
